(** * hakim-elysia: the paginated student list/search subsystem

    A shallow embedding of the Elysia REST handlers of the server
    ([/students] routes over one MongoDB collection) and of the search and
    pagination logic of the React client ([App.tsx]), with the properties of
    the specification proved or refuted against them.

    Conventions of the model.
    - Strings are sequences of 8-bit code units (Rocq [string]): ASCII
      text, and text beyond ASCII in its UTF-8 encoding, which is what
      [encodeURIComponent] escapes and [decodeURIComponent] rebuilds.  Case
      folding is ASCII case folding.
    - JavaScript numbers that reach the handlers are integer valued and are
      modelled in [Z]; [NaN] is kept apart ([Js.JsNumber]).
    - The store is always reachable: transport failures are not modelled.
    - An exception is a value carrying its [message]; every exception of the
      model is an instance of [Error], so the [instanceof Error] branch of
      each [catch] is the one taken. *)

From Stdlib Require Import ZArith NArith Arith List String Ascii Bool Lia.
From Stdlib Require Import Permutation.
Import ListNotations.

Open Scope Z_scope.
Open Scope list_scope.

(* ================================================================= *)
(** ** JavaScript values used by the code *)

Module Js.

(** The [message] of an exception.  Exceptions raised by the libraries carry
    a text of the library's choosing; only its origin is recorded. *)
Inductive Fault :=
| InvalidObjectId     (* new ObjectId(s), s not an ObjectId *)
| MalformedURI        (* decodeURIComponent *)
| DuplicateKey        (* E11000, unique index violated *)
| NegativeSkip        (* find().skip(n), n < 0 *)
| IndexOptionsConflict.

Inductive Message :=
| Text (s : string)
| Native (f : Fault).

(** A computation that may throw. *)
Inductive Result (A : Type) :=
| Ok (a : A)
| Throw (message : Message).
Arguments Ok {A} a.
Arguments Throw {A} message.

Definition bind {A B} (r : Result A) (k : A -> Result B) : Result B :=
  match r with
  | Ok a => k a
  | Throw m => Throw m
  end.

Notation "x <- r ;; k" := (bind r (fun x => k))
  (at level 61, r at next level, right associativity).

(** [Number(v)] for the values met here: not a number, or an integer. *)
Inductive JsNumber :=
| NaN
| Int (z : Z).

(** [n || d]: [NaN] and [0] are falsy. *)
Definition or_else (n : JsNumber) (d : Z) : Z :=
  match n with
  | NaN => d
  | Int z => if z =? 0 then d else z
  end.

(** [Math.ceil(a / b)] on integers, [b <> 0]. *)
Definition ceil_div (a b : Z) : Z := - ((- a) / b).

(** *** Strings *)

Definition code (c : ascii) : nat := nat_of_ascii c.

Definition is_upper (c : ascii) : bool :=
  (65 <=? code c)%nat && (code c <=? 90)%nat.

Definition lower_char (c : ascii) : ascii :=
  if is_upper c then ascii_of_nat (code c + 32) else c.

Fixpoint toLowerCase (s : string) : string :=
  match s with
  | EmptyString => EmptyString
  | String c s' => String (lower_char c) (toLowerCase s')
  end.

(** A text from its code units. *)
Definition text_of (units : list nat) : string :=
  string_of_list_ascii (List.map ascii_of_nat units).

(** A code unit that continues a character begun before it (UTF-8). *)
Definition is_continuation (c : ascii) : bool :=
  (128 <=? code c)%nat && (code c <=? 191)%nat.

(** The text starts in the middle of a character. *)
Definition continues (s : string) : bool :=
  match s with
  | EmptyString => false
  | String c _ => is_continuation c
  end.

(** The characters of a text: each one a code unit together with the
    continuation units that follow it. *)
Fixpoint characters (s : string) : list string :=
  match s with
  | EmptyString => []
  | String c s' =>
      match characters s' with
      | [] => [String c EmptyString]
      | ch :: chs =>
          if continues ch then String c ch :: chs
          else String c EmptyString :: ch :: chs
      end
  end.

Definition join (chs : list string) : string :=
  fold_right String.append EmptyString chs.

(** The characters removed by [String.prototype.trim], the white space and
    the line terminators of ECMAScript, each in its code units. *)
Definition white_space : list string :=
  List.map text_of
    [ [9]; [10]; [11]; [12]; [13]         (* TAB, LF, VT, FF, CR *)
    ; [32]                                (* U+0020 space *)
    ; [194; 160]                          (* U+00A0 no-break space *)
    ; [225; 154; 128]                     (* U+1680 *)
    ; [226; 128; 128]; [226; 128; 129]    (* U+2000 .. U+200A *)
    ; [226; 128; 130]; [226; 128; 131]
    ; [226; 128; 132]; [226; 128; 133]
    ; [226; 128; 134]; [226; 128; 135]
    ; [226; 128; 136]; [226; 128; 137]
    ; [226; 128; 138]
    ; [226; 128; 168]; [226; 128; 169]    (* U+2028, U+2029 line terminators *)
    ; [226; 128; 175]                     (* U+202F *)
    ; [226; 129; 159]                     (* U+205F *)
    ; [227; 128; 128]                     (* U+3000 *)
    ; [239; 187; 191]                     (* U+FEFF *)
    ]%nat.

Definition is_space (ch : string) : bool :=
  existsb (String.eqb ch) white_space.

(** The characters left after the white space at the front is dropped. *)
Fixpoint drop_spaces (chs : list string) : list string :=
  match chs with
  | [] => []
  | ch :: chs' => if is_space ch then drop_spaces chs' else chs
  end.

(** [s.trim()]: the text without the white space at its two ends. *)
Definition trim (s : string) : string :=
  join (rev (drop_spaces (rev (drop_spaces (characters s))))).

(** Truthiness of a string: non-empty. *)
Definition truthy (s : string) : bool :=
  match s with
  | EmptyString => false
  | String _ _ => true
  end.

(** *** encodeURIComponent / decodeURIComponent *)

Definition hex_digit (n : nat) : ascii :=
  if (n <? 10)%nat then ascii_of_nat (48 + n) else ascii_of_nat (55 + n).

Definition hex_value (c : ascii) : option nat :=
  let n := code c in
  if (48 <=? n)%nat && (n <=? 57)%nat then Some (n - 48)%nat
  else if (65 <=? n)%nat && (n <=? 70)%nat then Some (n - 55)%nat
  else if (97 <=? n)%nat && (n <=? 102)%nat then Some (n - 87)%nat
  else None.

Definition is_alnum (c : ascii) : bool :=
  let n := code c in
  ((48 <=? n) && (n <=? 57) || (65 <=? n) && (n <=? 90)
   || (97 <=? n) && (n <=? 122))%nat.

(** Characters that [encodeURIComponent] leaves as they are. *)
Definition uri_unreserved (c : ascii) : bool :=
  is_alnum c ||
  match code c with
  | 45%nat | 95%nat | 46%nat | 33%nat | 126%nat | 42%nat | 39%nat
  | 40%nat | 41%nat => true
  | _ => false
  end.

Fixpoint encodeURIComponent (s : string) : string :=
  match s with
  | EmptyString => EmptyString
  | String c s' =>
      if uri_unreserved c then String c (encodeURIComponent s')
      else String "%" (String (hex_digit (code c / 16))
                        (String (hex_digit (code c mod 16))
                           (encodeURIComponent s')))
  end.

(** One unit of an encoded text: a character standing for itself, or an
    escape [%XY] giving an octet. *)
Inductive UriUnit :=
| Plain (c : ascii)
| Escaped (octet : nat).

Fixpoint uri_units (s : string) : Result (list UriUnit) :=
  match s with
  | EmptyString => Ok []
  | String c s' =>
      if Ascii.eqb c "%" then
        match s' with
        | String h (String l rest) =>
            match hex_value h, hex_value l with
            | Some a, Some b =>
                us <- uri_units rest ;; Ok (Escaped (16 * a + b) :: us)
            | _, _ => Throw (Native MalformedURI)
            end
        | _ => Throw (Native MalformedURI)
        end
      else us <- uri_units s' ;; Ok (Plain c :: us)
  end.

(** Escaped octets of [0x80] and above must spell well-formed UTF-8:
    [pending] continuation octets are still due, the next one within
    [lo..hi]. *)
Fixpoint utf8_octets (pending lo hi : nat) (us : list UriUnit)
  : Result string :=
  match us with
  | [] => if (pending =? 0)%nat then Ok EmptyString
          else Throw (Native MalformedURI)
  | u :: us' =>
      match pending, u with
      | O, Plain c => t <- utf8_octets 0 128 191 us' ;; Ok (String c t)
      | O, Escaped b =>
          let next p l h :=
            t <- utf8_octets p l h us' ;; Ok (String (ascii_of_nat b) t) in
          if (b <? 128)%nat then next 0%nat 128%nat 191%nat
          else if (194 <=? b)%nat && (b <=? 223)%nat then next 1%nat 128%nat 191%nat
          else if (b =? 224)%nat then next 2%nat 160%nat 191%nat
          else if (b =? 237)%nat then next 2%nat 128%nat 159%nat
          else if (225 <=? b)%nat && (b <=? 239)%nat then next 2%nat 128%nat 191%nat
          else if (b =? 240)%nat then next 3%nat 144%nat 191%nat
          else if (241 <=? b)%nat && (b <=? 243)%nat then next 3%nat 128%nat 191%nat
          else if (b =? 244)%nat then next 3%nat 128%nat 143%nat
          else Throw (Native MalformedURI)
      | S p, Escaped b =>
          if (lo <=? b)%nat && (b <=? hi)%nat then
            t <- utf8_octets p 128 191 us' ;; Ok (String (ascii_of_nat b) t)
          else Throw (Native MalformedURI)
      | S _, Plain _ => Throw (Native MalformedURI)
      end
  end.

Definition decodeURIComponent (s : string) : Result string :=
  us <- uri_units s ;; utf8_octets 0 128 191 us.

(** *** Regular expressions

    [new RegExp(source, 'i')] as the store evaluates it, for the patterns
    made of ordinary characters and of the wildcard [.]; a pattern that uses
    another syntax character (one of [\ ^ $ * + ? ( ) [ ] { } |]) or the
    null character is outside the modelled fragment, and [RegExp_i] gives
    [None] for it. *)
Inductive Atom :=
| Chr (c : ascii)       (* an ordinary character, matched ignoring case *)
| Dot.                  (* any character but a line feed *)

Definition RegExp := list Atom.

Definition is_syntax_char (c : ascii) : bool :=
  match code c with
  | 92%nat | 94%nat | 36%nat | 46%nat | 42%nat | 43%nat | 63%nat
  | 40%nat | 41%nat | 91%nat | 93%nat | 123%nat | 125%nat | 124%nat => true
  | _ => false
  end.

Fixpoint RegExp_i (source : string) : option RegExp :=
  match source with
  | EmptyString => Some []
  | String c s' =>
      match RegExp_i s' with
      | None => None
      | Some r =>
          if Ascii.eqb c "." then Some (Dot :: r)
          else if is_syntax_char c || (code c =? 0)%nat then None
          else Some (Chr c :: r)
      end
  end.

Definition atom_matches (a : Atom) (c : ascii) : bool :=
  match a with
  | Chr p => Ascii.eqb (lower_char p) (lower_char c)
  | Dot => negb (code c =? 10)%nat
  end.

(** The pattern matches at the start of [s]. *)
Fixpoint match_here (r : RegExp) (s : string) : bool :=
  match r, s with
  | [], _ => true
  | a :: r', String c s' => atom_matches a c && match_here r' s'
  | _ :: _, EmptyString => false
  end.

(** The pattern matches somewhere in [s] (an unanchored search). *)
Fixpoint test (r : RegExp) (s : string) : bool :=
  match_here r s ||
  match s with
  | EmptyString => false
  | String _ s' => test r s'
  end.

End Js.

(* ================================================================= *)
(** ** The record store: one MongoDB collection *)

Module Mongo.
Import Js.

(** An [ObjectId] is a 12-byte value, kept as the number it spells. *)
Definition ObjectId := N.

Fixpoint hex_number (s : string) (acc : N) : option N :=
  match s with
  | EmptyString => Some acc
  | String c s' =>
      match hex_value c with
      | Some d => hex_number s' (16 * acc + N.of_nat d)%N
      | None => None
      end
  end.

(** [new ObjectId(s)] for a string [s]: 24 hexadecimal digits, an exception
    for any other string. *)
Definition new_ObjectId (s : string) : Result ObjectId :=
  if (String.length s =? 24)%nat then
    match hex_number s 0%N with
    | Some n => Ok n
    | None => Throw (Native InvalidObjectId)
    end
  else Throw (Native InvalidObjectId).

(** [interface Student] of the server, the body of a create or update: the
    four fields, each a string, as the interface declares them. *)
Record Student := mkStudent {
  student_id : string;
  firstname : string;
  lastname : string;
  nickname : string
}.

(** A stored document: the four fields and the [_id] given by the store. *)
Record Document := mkDocument {
  _id : ObjectId;
  fields : Student
}.

Inductive Field := f_student_id | f_firstname | f_lastname | f_nickname.

Definition field_eqb (a b : Field) : bool :=
  match a, b with
  | f_student_id, f_student_id | f_firstname, f_firstname
  | f_lastname, f_lastname | f_nickname, f_nickname => true
  | _, _ => false
  end.

Definition get (f : Field) (s : Student) : string :=
  match f with
  | f_student_id => student_id s
  | f_firstname => firstname s
  | f_lastname => lastname s
  | f_nickname => nickname s
  end.

(** Query filters, as far as the handlers build them. *)
Inductive Filter :=
| Everything                                  (* {} *)
| FieldEq (f : Field) (v : string)            (* { f: v } *)
| FieldRegex (f : Field) (r : RegExp)         (* { f: /r/i } *)
| IdEq (oid : ObjectId)                       (* { _id: oid } *)
| IdNe (oid : ObjectId)                       (* { _id: { $ne: oid } } *)
| And (a b : Filter)                          (* { ...a, ...b } *)
| Or (a b : Filter).                          (* { $or: [a, b] } *)

Fixpoint matches (q : Filter) (d : Document) : bool :=
  match q with
  | Everything => true
  | FieldEq f v => String.eqb (get f (fields d)) v
  | FieldRegex f r => test r (get f (fields d))
  | IdEq oid => N.eqb (_id d) oid
  | IdNe oid => negb (N.eqb (_id d) oid)
  | And a b => matches a d && matches b d
  | Or a b => matches a d || matches b d
  end.

Record Index := mkIndex {
  key : Field;
  unique : bool
}.

(** The collection: documents in their natural (insertion) order, the
    indexes built so far, and the source of fresh [ObjectId]s. *)
Record Collection := mkCollection {
  documents : list Document;
  indexes : list Index;
  next_id : ObjectId
}.

(** *** Reads *)

Record FindCursor := mkCursor {
  cursor_filter : Filter;
  cursor_skip : Z;
  cursor_limit : Z
}.

Definition find (q : Filter) : FindCursor := mkCursor q 0 0.

Definition skip (n : Z) (c : FindCursor) : FindCursor :=
  mkCursor (cursor_filter c) n (cursor_limit c).

Definition limit (n : Z) (c : FindCursor) : FindCursor :=
  mkCursor (cursor_filter c) (cursor_skip c) n.

(** A collation is accepted on a cursor; regular-expression and equality
    tests of [matches] are not affected by it. *)
Definition collation (locale : string) (strength : Z) (c : FindCursor)
  : FindCursor := c.

(** The order in which a query without a sort returns its hits is the
    store's choice, its plan for the query: a scan of the collection, or a
    walk along one or several of the indexes.  A plan is given the hits in
    natural order and arranges them.  The program does not choose it. *)
Definition Plan := list Document -> list Document.

(** The plan of [find({})], a scan of the collection: natural order. *)
Definition natural : Plan := fun hits => hits.

(** The store refuses a negative skip.  A limit of [0] is no limit, and a
    negative limit [-n] returns at most [n] documents. *)
Definition toArray (plan : Plan) (coll : Collection) (c : FindCursor)
  : Result (list Document) :=
  if cursor_skip c <? 0 then Throw (Native NegativeSkip)
  else
    let hits :=
      plan (List.filter (matches (cursor_filter c)) (documents coll)) in
    let rest := skipn (Z.to_nat (cursor_skip c)) hits in
    Ok (if cursor_limit c =? 0 then rest
        else firstn (Z.to_nat (Z.abs (cursor_limit c))) rest).

Definition countDocuments (coll : Collection) (q : Filter) : Z :=
  Z.of_nat (List.length (List.filter (matches q) (documents coll))).

Definition findOne (coll : Collection) (q : Filter) : option Document :=
  List.find (matches q) (documents coll).

(** *** Writes *)

(** Some document of [ds] has the value [v] in field [f]. *)
Definition holds_value (f : Field) (v : string) (ds : list Document) : bool :=
  existsb (fun d => String.eqb (get f (fields d)) v) ds.

(** [s] may join the documents [others] without breaking a unique index. *)
Definition admissible (ixs : list Index) (others : list Document)
  (s : Student) : bool :=
  forallb (fun ix => negb (unique ix && holds_value (key ix) (get (key ix) s) others))
    ixs.

(** [insertOne(s)]: the new document goes last and gets a fresh [_id]. *)
Definition insertOne (coll : Collection) (s : Student)
  : Result (Collection * ObjectId) :=
  if admissible (indexes coll) (documents coll) s then
    Ok (mkCollection (documents coll ++ [mkDocument (next_id coll) s])
          (indexes coll) (N.succ (next_id coll)),
        next_id coll)
  else Throw (Native DuplicateKey).

(** The first document satisfying [p], with what precedes and follows it. *)
Fixpoint split_first (p : Document -> bool) (ds : list Document)
  : option (list Document * Document * list Document) :=
  match ds with
  | [] => None
  | d :: ds' =>
      if p d then Some ([], d, ds')
      else match split_first p ds' with
           | Some (before, x, after) => Some (d :: before, x, after)
           | None => None
           end
  end.

(** [updateOne(q, { $set: s })]; the result is [matchedCount]. *)
Definition updateOne (coll : Collection) (q : Filter) (s : Student)
  : Result (Collection * Z) :=
  match split_first (matches q) (documents coll) with
  | None => Ok (coll, 0)
  | Some (before, x, after) =>
      if admissible (indexes coll) (before ++ after) s then
        Ok (mkCollection (before ++ mkDocument (_id x) s :: after)
              (indexes coll) (next_id coll),
            1)
      else Throw (Native DuplicateKey)
  end.

(** [deleteOne(q)]; the result is [deletedCount]. *)
Definition deleteOne (coll : Collection) (q : Filter) : Collection * Z :=
  match split_first (matches q) (documents coll) with
  | None => (coll, 0)
  | Some (before, _, after) =>
      (mkCollection (before ++ after) (indexes coll) (next_id coll), 1)
  end.

(** *** Indexes *)

(** No two documents of [ds] agree on field [f]. *)
Fixpoint distinct_on (f : Field) (ds : list Document) : bool :=
  match ds with
  | [] => true
  | d :: ds' => negb (holds_value f (get f (fields d)) ds') && distinct_on f ds'
  end.

Definition index_on (f : Field) (ixs : list Index) : option Index :=
  List.find (fun ix => field_eqb (key ix) f) ixs.

(** [createIndex({ f: 1 }, { unique: u })]: nothing to do when the index
    exists, an exception when an index on [f] exists with another option or
    when a unique index is asked for over duplicated values. *)
Definition createIndex (coll : Collection) (f : Field) (u : bool)
  : Result Collection :=
  match index_on f (indexes coll) with
  | Some ix =>
      if Bool.eqb (unique ix) u then Ok coll
      else Throw (Native IndexOptionsConflict)
  | None =>
      if u && negb (distinct_on f (documents coll)) then
        Throw (Native DuplicateKey)
      else Ok (mkCollection (documents coll) (indexes coll ++ [mkIndex f u])
                 (next_id coll))
  end.

End Mongo.

(* ================================================================= *)
(** ** The record query service: the Elysia handlers *)

Module Server.
Import Js Mongo.

(** What a handler returns to the framework: a plain object, sent as JSON
    with status 200, or a [Response] built by hand,
    [new Response(JSON.stringify({ message }), { status })]. *)
Inductive Answer (A : Type) :=
| Json (a : A)
| Response (message : Message) (status : Z).
Arguments Json {A} a.
Arguments Response {A} message status.

(** A handler returns an answer or throws. *)
Definition Outcome (A : Type) := Result (Answer A).

(** The status line of the reply; the framework answers an exception that
    leaves a handler with 500. *)
Definition status_of {A} (o : Outcome A) : Z :=
  match o with
  | Ok (Json _) => 200
  | Ok (Response _ status) => status
  | Throw _ => 500
  end.

(** [catch (error) { return new Response(..error.message.., { status: 400 }) }] *)
Definition catch_400 {A} (r : Result (Answer A)) : Outcome A :=
  match r with
  | Ok a => Ok a
  | Throw m => Ok (Response m 400)
  end.

(** [catch (error) { throw new Error(error.message) }] *)
Definition catch_rethrow {A} (r : Result (Answer A)) : Outcome A :=
  match r with
  | Ok a => Ok a
  | Throw m => Throw m
  end.

(** The query string, after [Number(query?.page)] and
    [Number(query?.limit)]. *)
Record Query := mkQuery {
  query_page : JsNumber;
  query_limit : JsNumber
}.

Record Pagination := mkPagination {
  total : Z;
  page : Z;
  limit : Z;
  totalPages : Z
}.

Record Page := mkPage {
  students : list Document;
  pagination : Pagination
}.

(** The body of a successful update, [{ ...body, _id: id }]. *)
Record Updated := mkUpdated {
  updated_fields : Student;
  updated_id : string
}.

Record Notice := mkNotice {
  message : string
}.

(** [GET /students]; the filter is empty, the documents come as the scan of
    the collection gives them. *)
Definition get_students (coll : Collection) (query : Query) : Outcome Page :=
  catch_400
    (let pg := or_else (query_page query) 1 in
     let lim := or_else (query_limit query) 10 in
     let skp := (pg - 1) * lim in
     result <- toArray natural coll
                 (Mongo.limit lim (Mongo.skip skp (find Everything))) ;;
     let total := countDocuments coll Everything in
     Ok (Json (mkPage result (mkPagination total pg lim (ceil_div total lim))))).

(** [POST /students] *)
Definition post_students (coll : Collection) (body : Student)
  : Collection * Outcome Document :=
  match findOne coll (FieldEq f_student_id (student_id body)) with
  | Some _ => (coll, Ok (Response (Text "Student ID already exists") 400))
  | None =>
      match insertOne coll body with
      | Ok (coll', insertedId) => (coll', Ok (Json (mkDocument insertedId body)))
      | Throw m => (coll, Ok (Response m 400))
      end
  end.

(** [PUT /students/:id] *)
Definition put_students_id (coll : Collection) (id : string) (body : Student)
  : Collection * Outcome Updated :=
  match new_ObjectId id with
  | Throw m => (coll, Ok (Response m 400))
  | Ok oid =>
      match findOne coll (And (FieldEq f_student_id (student_id body)) (IdNe oid)) with
      | Some _ => (coll, Ok (Response (Text "Student ID already exists") 400))
      | None =>
          match updateOne coll (IdEq oid) body with
          | Throw m => (coll, Ok (Response m 400))
          | Ok (coll', matchedCount) =>
              if matchedCount =? 0 then
                (coll', Ok (Response (Text "Student not found") 404))
              else (coll', Ok (Json (mkUpdated body id)))
          end
      end
  end.

(** [DELETE /students/:id] *)
Definition delete_students_id (coll : Collection) (id : string)
  : Collection * Outcome Notice :=
  match new_ObjectId id with
  | Throw m => (coll, catch_rethrow (Throw m))
  | Ok oid =>
      let (coll', deletedCount) := deleteOne coll (IdEq oid) in
      if deletedCount =? 0 then
        (coll', catch_rethrow (Throw (Text "Can't find this student to delete.")))
      else (coll', Ok (Json (mkNotice "Student deleted successfully")))
  end.

(** The filter of the search: any of the four fields matches
    [new RegExp(searchText, 'i')]. *)
Definition searchQuery (searchText : string) : option Filter :=
  match RegExp_i searchText with
  | None => None
  | Some r =>
      Some (Or (FieldRegex f_student_id r)
              (Or (FieldRegex f_firstname r)
                 (Or (FieldRegex f_lastname r)
                    (FieldRegex f_nickname r))))
  end.

(** [GET /students/search/:text]; [None] when the search text is a pattern
    outside the modelled fragment of regular expressions.  The filter is a
    [$or] over four indexed fields and no sort is asked for: the order of
    the hits is that of the store's [plan]. *)
Definition get_students_search_text (plan : Plan) (coll : Collection)
  (text : string) (query : Query) : option (Outcome Page) :=
  let pg := or_else (query_page query) 1 in
  let lim := or_else (query_limit query) 10 in
  let skp := (pg - 1) * lim in
  match decodeURIComponent text with
  | Throw m => Some (catch_400 (Throw m))
  | Ok searchText =>
      match searchQuery searchText with
      | None => None
      | Some q =>
          Some (catch_400
            (result <- toArray plan coll
                         (Mongo.limit lim
                            (Mongo.skip skp
                               (collation "th" 2 (find q)))) ;;
             let total := countDocuments coll q in
             Ok (Json (mkPage result
                         (mkPagination total pg lim (ceil_div total lim))))))
      end
  end.

(** [createIndexes]: the four indexes in turn; an exception ends the
    function (it is logged), keeping the indexes built before it. *)
Definition createIndexes (coll : Collection) : Collection :=
  match createIndex coll f_student_id true with
  | Throw _ => coll
  | Ok c1 =>
      match createIndex c1 f_firstname false with
      | Throw _ => c1
      | Ok c2 =>
          match createIndex c2 f_lastname false with
          | Throw _ => c2
          | Ok c3 =>
              match createIndex c3 f_nickname false with
              | Throw _ => c3
              | Ok c4 => c4
              end
          end
      end
  end.

(** [connectToMongo]: connecting and the ping leave the collection as it
    is; the indexes are created in between. *)
Definition connectToMongo (coll : Collection) : Collection :=
  createIndexes coll.

End Server.

(* ================================================================= *)
(** ** The query coordinator: search and pagination state of [App.tsx] *)

Module Client.
Import Js.

Record Student := mkStudent {
  _id : option string;
  student_id : string;
  firstname : string;
  lastname : string;
  nickname : string
}.

Record PaginationData := mkPaginationData {
  total : Z;
  page : Z;
  limit : Z;
  totalPages : Z
}.

(** The state of the component that search and pagination read and write
    (the modal form and its fields are left out), with the state of the
    [useDebounce] hook: the debounced text and the pending timeout. *)
Record App := mkApp {
  students : list Student;
  searchText : string;
  isLoading : bool;
  pagination : PaginationData;
  debouncedSearchText : string;
  timeout : option (nat * string)     (* milliseconds left, value to publish *)
}.

(** A read sent to the service. *)
Inductive Request :=
| GetStudents (page limit : Z)
    (* GET /students?page=..&limit=.. *)
| GetSearch (encodedSearchText : string) (page limit : Z).
    (* GET /students/search/<text>?page=..&limit=.. *)

Definition set_page (n : Z) (p : PaginationData) : PaginationData :=
  mkPaginationData (total p) n (limit p) (totalPages p).

Definition delay : nat := 500.

(** The request that [fetchStudents] of a render sends: it reads the
    debounced text and the pagination of that render. *)
Definition fetchStudents (s : App) : Request :=
  if truthy (trim (debouncedSearchText s)) then
    GetSearch (encodeURIComponent (trim (debouncedSearchText s)))
      (page (pagination s)) (limit (pagination s))
  else GetStudents (page (pagination s)) (limit (pagination s)).

(** Modelled from the spec: the hook [useDebounce] (./hooks/useDebounce) is
    not among the sources.  "Raw input changes are buffered; the debounced
    value updates only after a quiet period of fixed duration with no
    further input"; "each new keystroke cancels the pending scheduled
    callback and schedules a new one".  A change of the raw value replaces
    the pending timeout by one of the full delay for the new value. *)
Definition useDebounce_effect (prev cur : App) : option (nat * string) :=
  if String.eqb (searchText prev) (searchText cur) then timeout cur
  else Some (delay, searchText cur).

(** The effect with dependencies [debouncedSearchText, searchText] asks for
    page 1 when the two texts differ. *)
Definition reset_effect (prev cur : App) : bool :=
  negb (String.eqb (debouncedSearchText prev) (debouncedSearchText cur)
        && String.eqb (searchText prev) (searchText cur))
  && negb (String.eqb (debouncedSearchText cur) (searchText cur)).

(** [fetchStudents] is memoised on the debounced text, the page and the
    limit; the effect with dependencies [fetchStudents, debouncedSearchText,
    pagination.page] calls it unless a request is in flight. *)
Definition fetch_effect (prev cur : App) : bool :=
  negb (String.eqb (debouncedSearchText prev) (debouncedSearchText cur)
        && (page (pagination prev) =? page (pagination cur))
        && (limit (pagination prev) =? limit (pagination cur)))
  && negb (isLoading cur).

(** The effects of one render [cur] that follows the render [prev]: those
    whose dependencies changed run, read the values of [cur], and their
    state updates make the next render. *)
Definition commit (prev cur : App) : App * list Request :=
  let fetch := fetch_effect prev cur in
  (mkApp (students cur) (searchText cur)
     (if fetch then true else isLoading cur)
     (if reset_effect prev cur then set_page 1 (pagination cur)
      else pagination cur)
     (debouncedSearchText cur)
     (useDebounce_effect prev cur),
   if fetch then [fetchStudents cur] else []).

(** Renders follow one another while effects update the state. *)
Fixpoint rerender (n : nat) (prev cur : App) : App * list Request :=
  match n with
  | O => (cur, [])
  | S n' =>
      let (next, sent) := commit prev cur in
      let (final, more) := rerender n' cur next in
      (final, sent ++ more)
  end.

(** Two rounds of effects reach a state that no effect changes
    ([rerender_settles] below). *)
Definition render (prev cur : App) : App * list Request := rerender 2 prev cur.

(** The initial values of the [useState] calls. *)
Definition initial : App :=
  mkApp [] "" false (mkPaginationData 0 1 5 0) "" None.

(** The first render: every effect runs, whatever its dependencies. *)
Definition mount : App * list Request :=
  let fetch := negb (isLoading initial) in
  let first :=
    mkApp (students initial) (searchText initial)
      (if fetch then true else isLoading initial)
      (if String.eqb (debouncedSearchText initial) (searchText initial)
       then pagination initial else set_page 1 (pagination initial))
      (debouncedSearchText initial)
      (Some (delay, searchText initial)) in
  let (final, more) := render initial first in
  (final, (if fetch then [fetchStudents initial] else []) ++ more).

Definition handleSearchChange (s : App) (newValue : string)
  : App * list Request :=
  render s (mkApp (students s) newValue (isLoading s) (pagination s)
              (debouncedSearchText s) (timeout s)).

Definition handleSearch (s : App) : App * list Request :=
  render s (mkApp (students s) (searchText s) (isLoading s)
              (set_page 1 (pagination s)) (debouncedSearchText s) (timeout s)).

Definition handleClearSearch (s : App) : App * list Request :=
  render s (mkApp (students s) "" (isLoading s)
              (set_page 1 (pagination s)) (debouncedSearchText s) (timeout s)).

Definition handlePageChange (s : App) (newPage : Z) : App * list Request :=
  if (newPage <? 1) || (newPage >? totalPages (pagination s)) || isLoading s
  then (s, [])
  else render s (mkApp (students s) (searchText s) (isLoading s)
                   (set_page newPage (pagination s))
                   (debouncedSearchText s) (timeout s)).

(** Modelled from the spec: the timeout of [useDebounce], which is not
    among the sources.  [ms] milliseconds pass with no event; a timeout
    that comes due within them publishes its value as the debounced text
    ("the debounced value updates only after a quiet period"), and the
    component renders. *)
Definition elapse (s : App) (ms : nat) : App * list Request :=
  match timeout s with
  | None => (s, [])
  | Some (due, value) =>
      if (ms <? due)%nat then
        (mkApp (students s) (searchText s) (isLoading s) (pagination s)
           (debouncedSearchText s) (Some ((due - ms)%nat, value)), [])
      else
        render s (mkApp (students s) (searchText s) (isLoading s)
                    (pagination s) value None)
  end.

(** The reply to a request arrives: the rest of [fetchStudents].  The three
    state updates ([setStudents], [setPagination], [setIsLoading(false)])
    are made in one turn and make one render. *)
Definition fetch_fulfilled (s : App) (data_students : list Student)
  (data_pagination : PaginationData) : App * list Request :=
  render s (mkApp data_students (searchText s) false data_pagination
              (debouncedSearchText s) (timeout s)).

Definition fetch_rejected (s : App) : App * list Request :=
  render s (mkApp (students s) (searchText s) false (pagination s)
              (debouncedSearchText s) (timeout s)).

Inductive Event :=
| SearchChange (newValue : string)
| SearchClick
| ClearSearch
| PageChange (newPage : Z)
| Elapse (ms : nat)
| Fulfilled (data_students : list Student) (data_pagination : PaginationData)
| Rejected.

Definition step (s : App) (e : Event) : App * list Request :=
  match e with
  | SearchChange v => handleSearchChange s v
  | SearchClick => handleSearch s
  | ClearSearch => handleClearSearch s
  | PageChange n => handlePageChange s n
  | Elapse ms => elapse s ms
  | Fulfilled st pg => fetch_fulfilled s st pg
  | Rejected => fetch_rejected s
  end.

(** A run of events, with the requests sent along the way in order. *)
Fixpoint run (s : App) (es : list Event) : App * list Request :=
  match es with
  | [] => (s, [])
  | e :: es' =>
      let (s1, sent) := step s e in
      let (s2, more) := run s1 es' in
      (s2, sent ++ more)
  end.

End Client.

(* ================================================================= *)
(** ** Vocabulary of the specification *)

Module Spec.
Import Js Mongo.

(** [s] contains [q] as a substring, letter case ignored. *)
Definition contains_ignoring_case (q s : string) : Prop :=
  exists before after : string,
    toLowerCase s = (before ++ toLowerCase q ++ after)%string.

(** Some field of the record contains the query text, case ignored. *)
Definition some_field_contains (q : string) (d : Document) : Prop :=
  contains_ignoring_case q (student_id (fields d))
  \/ contains_ignoring_case q (firstname (fields d))
  \/ contains_ignoring_case q (lastname (fields d))
  \/ contains_ignoring_case q (nickname (fields d)).

(** The text has no character with a meaning in regular expressions. *)
Fixpoint ordinary (q : string) : bool :=
  match q with
  | EmptyString => true
  | String c q' =>
      negb (is_syntax_char c || (code c =? 0)%nat) && ordinary q'
  end.

(** The pattern that matches the characters of [q] one by one. *)
Fixpoint literal (q : string) : RegExp :=
  match q with
  | EmptyString => []
  | String c q' => Chr c :: literal q'
  end.

(** The filter of the search for a text taken character by character. *)
Definition literal_filter (q : string) : Filter :=
  Or (FieldRegex f_student_id (literal q))
    (Or (FieldRegex f_firstname (literal q))
       (Or (FieldRegex f_lastname (literal q))
          (FieldRegex f_nickname (literal q)))).


(** The text is made of ASCII white space only: of space, tab, line feed,
    vertical tab, form feed and carriage return. *)
Fixpoint spaces (q : string) : bool :=
  match q with
  | EmptyString => true
  | String c q' => is_space (String c EmptyString) && spaces q'
  end.

(** What a plan may do: return the hits it is given, each one once, in an
    order of its choosing. *)
Definition lawful (plan : Plan) : Prop :=
  forall hits, Permutation (plan hits) hits.

(** The text has no escape sequence. *)
Fixpoint percent_free (s : string) : bool :=
  match s with
  | EmptyString => true
  | String c s' => negb (Ascii.eqb c "%") && percent_free s'
  end.

(** The natural keys of the records, in order. *)
Definition keys (ds : list Document) : list string :=
  map (fun d => student_id (fields d)) ds.

(** A record of the store holds the natural key [k]. *)
Definition key_taken (coll : Collection) (k : string) : Prop :=
  exists d, In d (documents coll) /\ student_id (fields d) = k.

(** A record other than the one with id [oid] holds the natural key [k]. *)
Definition key_taken_by_other (coll : Collection) (oid : ObjectId)
  (k : string) : Prop :=
  exists d, In d (documents coll) /\ student_id (fields d) = k /\ _id d <> oid.

Definition has_id (coll : Collection) (oid : ObjectId) : Prop :=
  exists d, In d (documents coll) /\ _id d = oid.

(** No two records share a natural key. *)
Definition keys_unique (coll : Collection) : Prop :=
  distinct_on f_student_id (documents coll) = true.

(** The indexes are among those that [createIndexes] builds: only the one
    on [student_id] is unique. *)
Definition service_indexes (coll : Collection) : Prop :=
  forall ix, In ix (indexes coll) ->
    unique ix = field_eqb (key ix) f_student_id.

(** The store refuses a second record with a natural key. *)
Definition key_index_built (coll : Collection) : Prop :=
  In (mkIndex f_student_id true) (indexes coll).

(** The states of the store that the service works on: ids are distinct and
    older than the next one, natural keys are unique, and the indexes are
    the service's own. *)
Record consistent (coll : Collection) : Prop := mkConsistent {
  ids_distinct : NoDup (map _id (documents coll));
  ids_issued : forall d, In d (documents coll) -> (_id d < next_id coll)%N;
  keys_distinct : keys_unique coll;
  indexes_own : service_indexes coll
}.

(** The record with id [oid] gets the fields [body]; the others stay. *)
Definition replace_fields (oid : ObjectId) (body : Student)
  (ds : list Document) : list Document :=
  map (fun d => if N.eqb (_id d) oid then mkDocument oid body else d) ds.

(** A direct use of the store, past the handlers. *)
Inductive StoreOp :=
| Insert (s : Student)
| Update (oid : ObjectId) (s : Student)
| Delete (oid : ObjectId).

(** The collection after the operation, and whether the store refused it. *)
Definition apply_op (coll : Collection) (op : StoreOp) : Collection * bool :=
  match op with
  | Insert s =>
      match insertOne coll s with
      | Ok (coll', _) => (coll', false)
      | Throw _ => (coll, true)
      end
  | Update oid s =>
      match updateOne coll (IdEq oid) s with
      | Ok (coll', _) => (coll', false)
      | Throw _ => (coll, true)
      end
  | Delete oid => (fst (deleteOne coll (IdEq oid)), false)
  end.

Definition apply_ops (coll : Collection) (ops : list StoreOp) : Collection :=
  fold_left (fun c op => fst (apply_op c op)) ops coll.

(** A request to the mutating routes of the service. *)
Inductive Call :=
| Post (body : Student)
| Put (id : string) (body : Student)
| Del (id : string).

Definition serve (coll : Collection) (c : Call) : Collection :=
  match c with
  | Post body => fst (Server.post_students coll body)
  | Put id body => fst (Server.put_students_id coll id body)
  | Del id => fst (Server.delete_students_id coll id)
  end.

Definition serve_all (coll : Collection) (cs : list Call) : Collection :=
  fold_left serve cs coll.

(** The text changes of a burst of typing, each followed by a pause. *)
Fixpoint typing (burst : list (string * nat)) : list Client.Event :=
  match burst with
  | [] => []
  | (text, pause) :: burst' =>
      Client.SearchChange text :: Client.Elapse pause :: typing burst'
  end.

(** Every pause of the burst is shorter than the debounce delay. *)
Definition rapid (burst : list (string * nat)) : Prop :=
  Forall (fun tp => (snd tp < Client.delay)%nat) burst.

(** Each text of the sequence differs from the one before it, the first
    from [current]. *)
Fixpoint changing (current : string) (texts : list string) : Prop :=
  match texts with
  | [] => True
  | t :: texts' => t <> current /\ changing t texts'
  end.

End Spec.

(* ================================================================= *)
(** ** Sample data *)

Module Sample.
Import Js Mongo Server.
Open Scope string_scope.

Definition empty : Collection := mkCollection [] [] 1%N.

Definition anne : Student := Mongo.mkStudent "6701" "Anne" "Lee" "An".
Definition bob : Student := Mongo.mkStudent "6702" "Bob" "Ray" "Bo".
Definition nameless : Student := Mongo.mkStudent "6703" "" "" "".

(** The store after start-up and the creation of [anne]. *)
Definition one_record : Collection :=
  fst (post_students (connectToMongo empty) anne).

Definition two_records : Collection :=
  fst (post_students one_record bob).

Definition id1 : string := "000000000000000000000001".
Definition id2 : string := "000000000000000000000002".
Definition id9 : string := "000000000000000000000009".

Definition defaults : Query := mkQuery NaN NaN.

Definition page_of (n tp : Z) : Client.PaginationData :=
  Client.mkPaginationData 12 n 5 tp.

(** The coordinator on page 2 of 3 with the search text "ann" settled:
    mounted, first page received, "ann" typed and debounced, its first
    page received, page 2 asked for and received. *)
Definition on_page_two : Client.App :=
  fst (Client.run (fst Client.mount)
         [Client.Fulfilled [] (page_of 1 3);
          Client.SearchChange "ann";
          Client.Elapse 500;
          Client.Fulfilled [] (page_of 1 3);
          Client.PageChange 2;
          Client.Fulfilled [] (page_of 2 3)]).

(** The coordinator on page 1 of 3, idle, nothing typed. *)
Definition on_page_one : Client.App :=
  fst (Client.run (fst Client.mount) [Client.Fulfilled [] (page_of 1 3)]).

(** A plan that returns the hits newest first, as a walk of an index from
    its far end would. *)
Definition newest_first : Plan := @rev Document.

(** A no-break space, U+00A0. *)
Definition nbsp : string := text_of [194; 160]%nat.

End Sample.

(* ================================================================= *)
(** ** The rest of the student routes, and reading a store page by page *)

Module StudentById.
Import Js Mongo Server.

(** [GET /students/:id] *)
Definition get_students_id (coll : Collection) (id : string)
  : Outcome Document :=
  catch_rethrow
    (oid <- new_ObjectId id ;;
     match findOne coll (IdEq oid) with
     | Some student => Ok (Json student)
     | None => Throw (Text "Can't find this student.")
     end).

(** The records of an answer of the list or search route; none when the
    answer is a failure. *)
Definition shown (o : Outcome Page) : list Document :=
  match o with
  | Ok (Json p) => students p
  | _ => []
  end.

(** The pages 1 to [totalPages] of the list route for a limit, one after
    the other. *)
Definition all_pages (coll : Collection) (lim : Z) : list Document :=
  let count := countDocuments coll Everything in
  flat_map
    (fun p => shown (get_students coll (mkQuery (Int (Z.of_nat p)) (Int lim))))
    (seq 1 (Z.to_nat (ceil_div count lim))).

(** The id that a request names, when it names one. *)
Definition target (c : Spec.Call) : option ObjectId :=
  match c with
  | Spec.Post _ => None
  | Spec.Put id _ | Spec.Del id =>
      match new_ObjectId id with
      | Ok oid => Some oid
      | Throw _ => None
      end
  end.

(** Every character of the text is white space. *)
Definition blank (s : string) : bool := forallb is_space (characters s).

End StudentById.

(* ================================================================= *)
(** ** The product routes of the first server *)

Module Products.
Import Js.

Record Top := mkTop {
  top_name : string               (* name *)
}.

(** [interface Product]; the price is taken to be a whole number. *)
Record Product := mkProduct {
  name : string;
  price : Z;
  top : list Top
}.

Record Stored := mkStored {
  _id : Mongo.ObjectId;
  product : Product
}.

(** The collection [product]: no index is ever created on it. *)
Record Collection := mkCollection {
  documents : list Stored;
  next_id : Mongo.ObjectId
}.

(** The answer of a create, [{ id: insertedId, ...product }]; the driver
    has written the [_id] into the inserted object, so the stored document
    is spread. *)
Record Created := mkCreated {
  created_id : Mongo.ObjectId;
  created : Stored
}.

(** The answer of an update, [{ id, ...product }], with the id as it came
    in the path. *)
Record Updated := mkUpdated {
  updated_id : string;
  updated : Product
}.

Record Notice := mkNotice {
  message : string
}.

(** A handler of this server returns a plain object or throws. *)
Definition Outcome (A : Type) := Result A.

Definition by_id (oid : Mongo.ObjectId) (d : Stored) : bool :=
  N.eqb (_id d) oid.

(** The first document satisfying [p], with what precedes and follows it. *)
Fixpoint split_first (p : Stored -> bool) (ds : list Stored)
  : option (list Stored * Stored * list Stored) :=
  match ds with
  | [] => None
  | d :: ds' =>
      if p d then Some ([], d, ds')
      else match split_first p ds' with
           | Some (before, x, after) => Some (d :: before, x, after)
           | None => None
           end
  end.

(** [GET /products] *)
Definition get_products (coll : Collection) : Outcome (list Stored) :=
  Ok (documents coll).

(** [POST /products]: the product is inserted as it comes. *)
Definition post_products (coll : Collection) (body : Product)
  : Collection * Outcome Created :=
  (mkCollection (documents coll ++ [mkStored (next_id coll) body])
     (N.succ (next_id coll)),
   Ok (mkCreated (next_id coll) (mkStored (next_id coll) body))).

(** [GET /products/:id] *)
Definition get_products_id (coll : Collection) (id : string)
  : Outcome Stored :=
  oid <- Mongo.new_ObjectId id ;;
  match List.find (by_id oid) (documents coll) with
  | Some p => Ok p
  | None => Throw (Text "Can't find this product.")
  end.

(** [PUT /products/:id]: [updateOne({ _id }, { $set: product })]. *)
Definition put_products_id (coll : Collection) (id : string) (body : Product)
  : Collection * Outcome Updated :=
  match Mongo.new_ObjectId id with
  | Throw m => (coll, Throw m)
  | Ok oid =>
      match split_first (by_id oid) (documents coll) with
      | None => (coll, Throw (Text "Can't find this product to update."))
      | Some (before, x, after) =>
          (mkCollection (before ++ mkStored (_id x) body :: after)
             (next_id coll),
           Ok (mkUpdated id body))
      end
  end.

(** [DELETE /products/:id] *)
Definition delete_products_id (coll : Collection) (id : string)
  : Collection * Outcome Notice :=
  match Mongo.new_ObjectId id with
  | Throw m => (coll, Throw m)
  | Ok oid =>
      match split_first (by_id oid) (documents coll) with
      | None => (coll, Throw (Text "Can't find this product to delete."))
      | Some (before, _, after) =>
          (mkCollection (before ++ after) (next_id coll),
           Ok (mkNotice "Product deleted successfully"))
      end
  end.

(** [s.split(",")]: the pieces between the commas, one piece at least. *)
Fixpoint split_comma (s : string) : list string :=
  match s with
  | EmptyString => [EmptyString]
  | String c s' =>
      if Ascii.eqb c "," then EmptyString :: split_comma s'
      else match split_comma s' with
           | piece :: pieces => String c piece :: pieces
           | [] => [String c EmptyString]
           end
  end.

(** [{ "top.name": { $in: names } }]: a topping of the product has one of
    the names. *)
Definition has_topping (names : list string) (d : Stored) : bool :=
  existsb (fun t => existsb (String.eqb (top_name t)) names) (top (product d)).

(** [GET /products/topping/:topping] *)
Definition get_products_topping (coll : Collection) (topping : string)
  : Outcome (list Stored) :=
  Ok (List.filter (has_topping (split_comma topping)) (documents coll)).

(** A request to a route that writes. *)
Inductive Call :=
| Post (body : Product)
| Put (id : string) (body : Product)
| Del (id : string).

Definition serve (coll : Collection) (c : Call) : Collection :=
  match c with
  | Post body => fst (post_products coll body)
  | Put id body => fst (put_products_id coll id body)
  | Del id => fst (delete_products_id coll id)
  end.

Definition empty : Collection := mkCollection [] 1%N.

(** The text has no comma. *)
Fixpoint comma_free (s : string) : bool :=
  match s with
  | EmptyString => true
  | String c s' => negb (Ascii.eqb c ",") && comma_free s'
  end.

(** Ids are distinct and older than the next one. *)
Definition well_formed (coll : Collection) : Prop :=
  NoDup (map _id (documents coll))
  /\ forall d, In d (documents coll) -> (_id d < next_id coll)%N.

End Products.

(* ================================================================= *)
(** ** The pagination controls of [App.tsx] *)

Module Controls.
Import Js Client.

Definition maxVisible : Z := 5.

(** [for (let i = start; i <= stop; i++)], the values of [i]. *)
Fixpoint count_up (start : Z) (n : nat) : list Z :=
  match n with
  | O => []
  | S n' => start :: count_up (start + 1) n'
  end.

Definition from_to (start stop : Z) : list Z :=
  count_up start (Z.to_nat (stop - start + 1)).

(** [renderPaginationNumbers]: the numbers of the page buttons; the button
    [i] calls [handlePageChange(i)]. *)
Definition renderPaginationNumbers (p : PaginationData) : list Z :=
  let start := Z.max 1 (page p - maxVisible / 2) in
  let stop := Z.min (start + maxVisible - 1) (totalPages p) in
  let start :=
    if stop - start + 1 <? maxVisible then Z.max 1 (stop - maxVisible + 1)
    else start in
  from_to start stop.

(** The pages that the controls below the table can ask for: "Previous"
    and "Next" when they are not disabled, and the page buttons; nothing is
    rendered unless there is more than one page. *)
Definition navigation (s : App) : list Z :=
  let p := pagination s in
  if totalPages p >? 1 then
    (if (page p =? 1) || isLoading s then [] else [page p - 1])
    ++ renderPaginationNumbers p
    ++ (if (page p =? totalPages p) || isLoading s then [] else [page p + 1])
  else [].

(** The event is the answer to a request. *)
Definition is_reply (e : Event) : bool :=
  match e with
  | Fulfilled _ _ | Rejected => true
  | _ => false
  end.

End Controls.

(* ================================================================= *)
(** ** Proof tactics *)

Module Tactics.
Import Client.

(** All 256 characters, one by one. *)
Ltac each_char c :=
  destruct c as [[] [] [] [] [] [] [] []].

(** Unfold one update of the component down to its effects. *)
Ltac effects :=
  unfold render, rerender, commit, fetch_effect, reset_effect,
    useDebounce_effect;
  cbn [fst snd students searchText isLoading pagination debouncedSearchText
         timeout set_page page limit andb negb app].

(** Finish a goal about effects whose tests are decided. *)
Ltac settled :=
  repeat (progress (cbn [fst snd students searchText isLoading pagination
                           debouncedSearchText timeout set_page page limit
                           andb negb app];
                    rewrite ?String.eqb_refl, ?Z.eqb_refl));
  try reflexivity.

End Tactics.

(* ================================================================= *)
(** ** Facts about the JavaScript layer *)

Module JsFacts.
Import Js Spec Tactics.

(** [ceil_div] is the least number of pages of [b] records that hold [a]
    records. *)
Lemma ceil_div_bounds (a b : Z) :
  0 < b -> (ceil_div a b - 1) * b < a <= ceil_div a b * b.
Proof.
  intros Hb. unfold ceil_div.
  pose proof (Z.div_mod (- a) b ltac:(lia)) as Hdm.
  pose proof (Z.mod_pos_bound (- a) b Hb) as Hm.
  nia.
Qed.

Lemma ceil_div_nonneg (a b : Z) : 0 <= a -> 0 < b -> 0 <= ceil_div a b.
Proof.
  intros Ha Hb. pose proof (ceil_div_bounds a b Hb). nia.
Qed.

Lemma lower_char_idem (c : ascii) : lower_char (lower_char c) = lower_char c.
Proof. each_char c; reflexivity. Qed.




Lemma toLowerCase_app (s t : string) :
  toLowerCase (s ++ t) = (toLowerCase s ++ toLowerCase t)%string.
Proof.
  induction s as [|c s IH]; simpl; [reflexivity | now rewrite IH].
Qed.

(** A split of the lowered text comes from a split of the text. *)
Lemma toLowerCase_split (a b s : string) :
  toLowerCase s = (a ++ b)%string ->
  exists s1 s2, s = (s1 ++ s2)%string
                /\ toLowerCase s1 = a /\ toLowerCase s2 = b.
Proof.
  revert s. induction a as [|c a IH]; intros s H; simpl in H.
  - exists EmptyString, s. auto.
  - destruct s as [|x s]; simpl in H; [discriminate|].
    injection H as Hc Hs.
    destruct (IH s Hs) as (s1 & s2 & -> & H1 & H2).
    exists (String x s1), s2. simpl. rewrite Hc, H1. auto.
Qed.

(** *** The literal patterns *)

Lemma RegExp_i_ordinary (q : string) :
  ordinary q = true -> RegExp_i q = Some (literal q).
Proof.
  induction q as [|c q IH]; simpl; [reflexivity|].
  intros H. apply andb_true_iff in H as [Hc Hq].
  rewrite (IH Hq). apply negb_true_iff in Hc.
  destruct (Ascii.eqb c ".") eqn:Hdot.
  - apply Ascii.eqb_eq in Hdot. subst c. discriminate Hc.
  - now rewrite Hc.
Qed.

(** A literal pattern matches at the start of the texts that begin with
    it, case ignored. *)
Lemma match_here_literal (q s : string) :
  match_here (literal q) s = true <->
  exists after, toLowerCase s = (toLowerCase q ++ after)%string.
Proof.
  revert s. induction q as [|c q IH]; intros s; simpl.
  - split; [intros _; now exists (toLowerCase s) | reflexivity].
  - destruct s as [|x s]; simpl.
    + split; [discriminate | intros [after H]; discriminate].
    + rewrite andb_true_iff, Ascii.eqb_eq, IH. split.
      * intros [Hc [after H]]. exists after. now rewrite Hc, H.
      * intros [after H]. injection H as Hc Hs. split; [auto | now exists after].
Qed.

(** [test] looks for a match at every position. *)
Lemma test_somewhere (r : RegExp) (s : string) :
  test r s = true <->
  exists s1 s2, s = (s1 ++ s2)%string /\ match_here r s2 = true.
Proof.
  induction s as [|c s IH].
  - simpl. rewrite orb_false_r. split.
    + intros H. now exists EmptyString, EmptyString.
    + intros (s1 & s2 & Hs & H).
      destruct s1; simpl in Hs; [now subst s2 | discriminate].
  - cbn [test]. rewrite orb_true_iff, IH. split.
    + intros [H | (s1 & s2 & -> & H)].
      * now exists EmptyString, (String c s).
      * now exists (String c s1), s2.
    + intros (s1 & s2 & Hs & H). destruct s1 as [|x s1]; simpl in Hs.
      * subst s2. now left.
      * injection Hs as _ Hs. right. now exists s1, s2.
Qed.

(** A literal pattern finds exactly the texts that contain it as a
    substring, case ignored. *)
Lemma test_literal (q s : string) :
  test (literal q) s = true <-> contains_ignoring_case q s.
Proof.
  rewrite test_somewhere. unfold contains_ignoring_case. split.
  - intros (s1 & s2 & -> & H). apply match_here_literal in H as [after H].
    exists (toLowerCase s1), after. now rewrite toLowerCase_app, H.
  - intros (before & after & H).
    apply toLowerCase_split in H as (s1 & s2 & -> & _ & H2).
    exists s1, s2. split; [reflexivity|].
    apply match_here_literal. now exists after.
Qed.

(** The empty pattern matches every text. *)
Lemma test_empty (s : string) : test [] s = true.
Proof. destruct s; reflexivity. Qed.

(** *** Case variants of a pattern *)




(** A text without [%] decodes to itself. *)
Lemma uri_units_plain (s : string) :
  percent_free s = true ->
  exists us, uri_units s = Ok us
             /\ utf8_octets 0 128 191 us = Ok s.
Proof.
  induction s as [|c s IH]; simpl; intros H.
  - exists []. auto.
  - apply andb_true_iff in H as [Hc Hs]. apply negb_true_iff in Hc.
    rewrite Hc. destruct (IH Hs) as (us & -> & Hus).
    exists (Plain c :: us). simpl. now rewrite Hus.
Qed.

Lemma decodeURIComponent_plain (s : string) :
  percent_free s = true -> decodeURIComponent s = Ok s.
Proof.
  intros H. unfold decodeURIComponent.
  destruct (uri_units_plain s H) as (us & -> & Hus). exact Hus.
Qed.

End JsFacts.

(* ================================================================= *)
(** ** Facts about the store *)

Module MongoFacts.
Import Js Mongo Spec.

Lemma field_eqb_eq (a b : Field) : field_eqb a b = true <-> a = b.
Proof. destruct a, b; simpl; split; congruence. Qed.

Lemma filter_all {A} (p : A -> bool) (l : list A) :
  (forall x, In x l -> p x = true) -> List.filter p l = l.
Proof.
  induction l as [|x l IH]; simpl; intros H; [reflexivity|].
  rewrite (H x (or_introl eq_refl)). f_equal. apply IH. auto.
Qed.

Lemma holds_value_In (f : Field) (v : string) (ds : list Document) :
  holds_value f v ds = true <->
  exists d, In d ds /\ get f (fields d) = v.
Proof.
  unfold holds_value. rewrite existsb_exists.
  split; intros (d & Hd & H); exists d; (split; [exact Hd|]);
    now apply String.eqb_eq.
Qed.

Lemma holds_value_map (f : Field) (v : string) (ds : list Document) :
  holds_value f v ds = true <-> In v (map (fun d => get f (fields d)) ds).
Proof.
  rewrite holds_value_In, in_map_iff.
  split; intros (d & H1 & H2); exists d; auto.
Qed.

Lemma distinct_on_NoDup (f : Field) (ds : list Document) :
  distinct_on f ds = true <-> NoDup (map (fun d => get f (fields d)) ds).
Proof.
  induction ds as [|d ds IH]; simpl.
  - split; [constructor | reflexivity].
  - rewrite andb_true_iff, negb_true_iff, IH. split.
    + intros [Hd Hds]. constructor; [|exact Hds].
      rewrite <- holds_value_map. congruence.
    + intros H. inversion H as [|? ? Hd Hds]; subst. split; [|exact Hds].
      rewrite <- holds_value_map in Hd.
      now destruct (holds_value f (get f (fields d)) ds).
Qed.

(** *** [findOne] *)

Lemma findOne_key_none (coll : Collection) (k : string) :
  findOne coll (FieldEq f_student_id k) = None <-> ~ key_taken coll k.
Proof.
  unfold findOne, key_taken. split.
  - intros H (d & Hd & Hk).
    pose proof (find_none _ _ H d Hd) as Hn. simpl in Hn.
    apply String.eqb_neq in Hn. contradiction.
  - intros H.
    destruct (List.find (matches (FieldEq f_student_id k)) (documents coll))
      as [d|] eqn:Hf; [|reflexivity].
    apply find_some in Hf as [Hd Hm]. simpl in Hm.
    apply String.eqb_eq in Hm. exfalso. apply H. now exists d.
Qed.

Lemma findOne_key_some (coll : Collection) (k : string) :
  key_taken coll k ->
  exists d, findOne coll (FieldEq f_student_id k) = Some d.
Proof.
  intros H. destruct (findOne coll (FieldEq f_student_id k)) as [d|] eqn:Hf.
  - now exists d.
  - apply findOne_key_none in Hf. contradiction.
Qed.

Lemma findOne_other_none (coll : Collection) (oid : ObjectId) (k : string) :
  findOne coll (And (FieldEq f_student_id k) (IdNe oid)) = None <->
  ~ key_taken_by_other coll oid k.
Proof.
  unfold findOne, key_taken_by_other. split.
  - intros H (d & Hd & Hk & Hi).
    pose proof (find_none _ _ H d Hd) as Hn. simpl in Hn.
    apply andb_false_iff in Hn as [Hn | Hn].
    + apply String.eqb_neq in Hn. contradiction.
    + apply negb_false_iff, N.eqb_eq in Hn. contradiction.
  - intros H.
    destruct (List.find (matches (And (FieldEq f_student_id k) (IdNe oid)))
                (documents coll)) as [d|] eqn:Hf; [|reflexivity].
    apply find_some in Hf as [Hd Hm]. simpl in Hm.
    apply andb_true_iff in Hm as [Hk Hi].
    apply String.eqb_eq in Hk. apply negb_true_iff, N.eqb_neq in Hi.
    exfalso. apply H. now exists d.
Qed.

Lemma findOne_other_some (coll : Collection) (oid : ObjectId) (k : string) :
  key_taken_by_other coll oid k ->
  exists d, findOne coll (And (FieldEq f_student_id k) (IdNe oid)) = Some d.
Proof.
  intros H.
  destruct (findOne coll (And (FieldEq f_student_id k) (IdNe oid)))
    as [d|] eqn:Hf.
  - now exists d.
  - apply findOne_other_none in Hf. contradiction.
Qed.

(** *** Unique indexes *)

(** With the service's indexes, a record may join when no other holds its
    natural key. *)
Lemma admissible_free_key (ixs : list Index) (others : list Document)
  (s : Student) :
  (forall ix, In ix ixs -> unique ix = field_eqb (key ix) f_student_id) ->
  holds_value f_student_id (student_id s) others = false ->
  admissible ixs others s = true.
Proof.
  intros Hix Hfree. unfold admissible. apply forallb_forall. intros ix Hin.
  rewrite (Hix ix Hin).
  destruct (field_eqb (key ix) f_student_id) eqn:Hk; [|reflexivity].
  apply field_eqb_eq in Hk. rewrite Hk. simpl. now rewrite Hfree.
Qed.

(** With the unique index on the natural key, a record may not join when
    another holds its key. *)
Lemma admissible_taken_key (ixs : list Index) (others : list Document)
  (s : Student) :
  In (mkIndex f_student_id true) ixs ->
  holds_value f_student_id (student_id s) others = true ->
  admissible ixs others s = false.
Proof.
  intros Hin Htaken. unfold admissible.
  destruct (forallb _ ixs) eqn:Hall; [|reflexivity].
  rewrite forallb_forall in Hall. specialize (Hall _ Hin).
  simpl in Hall. now rewrite Htaken in Hall.
Qed.

Lemma admissible_key_free (ixs : list Index) (others : list Document)
  (s : Student) :
  In (mkIndex f_student_id true) ixs ->
  admissible ixs others s = true ->
  holds_value f_student_id (student_id s) others = false.
Proof.
  intros Hin Hadm.
  destruct (holds_value f_student_id (student_id s) others) eqn:H;
    [|reflexivity].
  now rewrite (admissible_taken_key ixs others s Hin H) in Hadm.
Qed.

(** *** [split_first] *)

Lemma split_first_none (p : Document -> bool) (ds : list Document) :
  split_first p ds = None <-> forall d, In d ds -> p d = false.
Proof.
  induction ds as [|d ds IH]; simpl.
  - split; [intros _ d [] | reflexivity].
  - destruct (p d) eqn:Hp.
    + split; [discriminate|]. intros H.
      specialize (H d (or_introl eq_refl)). congruence.
    + destruct (split_first p ds) as [[[b x] a]|].
      * split; [discriminate|]. intros H.
        destruct IH as [_ IH]. discriminate IH. intros d' Hd'. auto.
      * split; [|reflexivity]. intros _ d' [<- | Hd']; [exact Hp|].
        now apply IH.
Qed.

Lemma split_first_some (p : Document -> bool) (ds before after : list Document)
  (x : Document) :
  split_first p ds = Some (before, x, after) ->
  ds = before ++ x :: after /\ p x = true
  /\ forall d, In d before -> p d = false.
Proof.
  revert before. induction ds as [|d ds IH]; simpl; intros before H;
    [discriminate|].
  destruct (p d) eqn:Hp.
  - injection H as <- <- <-. repeat split; auto. intros d' [].
  - destruct (split_first p ds) as [[[b y] a]|]; [|discriminate].
    injection H as <- <- <-.
    destruct (IH b eq_refl) as (-> & Hy & Hb).
    repeat split; auto. intros d' [<- | Hd']; auto.
Qed.

(** With distinct ids, the record found by id is the only one with it. *)
Lemma split_by_id (oid : ObjectId) (ds before after : list Document)
  (x : Document) :
  NoDup (map _id ds) ->
  split_first (matches (IdEq oid)) ds = Some (before, x, after) ->
  ds = before ++ x :: after /\ _id x = oid
  /\ forall d, In d (before ++ after) -> _id d <> oid.
Proof.
  intros Hnd H. apply split_first_some in H as (-> & Hx & Hb).
  simpl in Hx. apply N.eqb_eq in Hx. repeat split; auto.
  intros d Hd Hid. rewrite map_app in Hnd. simpl in Hnd.
  apply NoDup_remove_2 in Hnd. apply Hnd. rewrite <- map_app.
  rewrite Hx, <- Hid. now apply in_map.
Qed.

Lemma replace_fields_others (oid : ObjectId) (body : Student)
  (ds : list Document) :
  (forall d, In d ds -> _id d <> oid) -> replace_fields oid body ds = ds.
Proof.
  intros H. unfold replace_fields. rewrite <- (map_id ds) at 2.
  apply map_ext_in. intros d Hd.
  destruct (N.eqb (_id d) oid) eqn:E; [|reflexivity].
  apply N.eqb_eq in E. now apply H in Hd.
Qed.

Lemma replace_fields_split (oid : ObjectId) (body : Student)
  (before after : list Document) (x : Document) :
  _id x = oid ->
  (forall d, In d (before ++ after) -> _id d <> oid) ->
  replace_fields oid body (before ++ x :: after)
  = before ++ mkDocument oid body :: after.
Proof.
  intros Hx Hothers.
  assert (Hb : replace_fields oid body before = before).
  { apply replace_fields_others. intros d Hd. apply Hothers.
    apply in_or_app. now left. }
  assert (Ha : replace_fields oid body after = after).
  { apply replace_fields_others. intros d Hd. apply Hothers.
    apply in_or_app. now right. }
  unfold replace_fields in *. rewrite map_app. simpl.
  rewrite Hb, Ha, Hx, N.eqb_refl. reflexivity.
Qed.

End MongoFacts.

(* ================================================================= *)
(** ** The states of the store *)

Module StoreStates.
Import Js Mongo Server Spec MongoFacts.

Lemma keys_app (a b : list Document) : keys (a ++ b) = keys a ++ keys b.
Proof. apply map_app. Qed.

Lemma holds_value_keys (k : string) (ds : list Document) :
  holds_value f_student_id k ds = true <-> In k (keys ds).
Proof. apply holds_value_map. Qed.

Lemma keys_unique_NoDup (coll : Collection) :
  keys_unique coll <-> NoDup (keys (documents coll)).
Proof. apply distinct_on_NoDup. Qed.

Lemma key_free_not_in (coll : Collection) (k : string) :
  ~ key_taken coll k <-> ~ In k (keys (documents coll)).
Proof.
  unfold key_taken, keys. rewrite in_map_iff.
  split; intros H (d & H1 & H2); apply H; exists d; auto.
Qed.

Lemma NoDup_snoc {A} (l : list A) (x : A) :
  NoDup l -> ~ In x l -> NoDup (l ++ [x]).
Proof.
  intros Hl Hx. apply (Permutation_NoDup (l := x :: l)).
  - apply Permutation_cons_append.
  - now constructor.
Qed.

Lemma NoDup_replace {A} (b a : list A) (x y : A) :
  NoDup (b ++ x :: a) -> ~ In y (b ++ a) -> NoDup (b ++ y :: a).
Proof.
  intros H Hy. apply NoDup_remove_1 in H.
  apply (Permutation_NoDup (l := y :: b ++ a)).
  - apply Permutation_middle.
  - now constructor.
Qed.

Lemma NoDup_drop {A} (b a : list A) (x : A) :
  NoDup (b ++ x :: a) -> NoDup (b ++ a).
Proof. apply NoDup_remove_1. Qed.

(** The empty collection is a state of the service. *)
Lemma consistent_empty : consistent Sample.empty.
Proof.
  constructor; simpl.
  - constructor.
  - intros d [].
  - reflexivity.
  - intros ix [].
Qed.

(** *** The store's own operations *)

Lemma insertOne_ok (coll : Collection) (s : Student) :
  service_indexes coll -> ~ key_taken coll (student_id s) ->
  insertOne coll s
  = Ok (mkCollection (documents coll ++ [mkDocument (next_id coll) s])
          (indexes coll) (N.succ (next_id coll)), next_id coll).
Proof.
  intros Hix Hfree. unfold insertOne.
  rewrite admissible_free_key; [reflexivity | exact Hix |].
  destruct (holds_value f_student_id (student_id s) (documents coll)) eqn:H;
    [|reflexivity].
  apply holds_value_In in H as (d & Hd & Hk). exfalso. apply Hfree.
  now exists d.
Qed.

Lemma consistent_insert (coll : Collection) (s : Student) :
  consistent coll -> ~ key_taken coll (student_id s) ->
  consistent (mkCollection (documents coll ++ [mkDocument (next_id coll) s])
                (indexes coll) (N.succ (next_id coll))).
Proof.
  intros [Hids Hissued Hkeys Hix] Hfree. constructor; simpl.
  - rewrite map_app. simpl. apply NoDup_snoc; [exact Hids|].
    intros Hin. apply in_map_iff in Hin as (d & Hd & Hin).
    apply Hissued in Hin. lia.
  - intros d Hd. apply in_app_or in Hd as [Hd | [<- | []]].
    + apply Hissued in Hd. lia.
    + simpl. lia.
  - apply keys_unique_NoDup. simpl. rewrite keys_app.
    apply NoDup_snoc; [now apply keys_unique_NoDup|].
    now apply key_free_not_in.
  - exact Hix.
Qed.

Lemma consistent_replace (coll : Collection) (before after : list Document)
  (x : Document) (s : Student) :
  consistent coll ->
  documents coll = before ++ x :: after ->
  holds_value f_student_id (student_id s) (before ++ after) = false ->
  consistent (mkCollection (before ++ mkDocument (_id x) s :: after)
                (indexes coll) (next_id coll)).
Proof.
  intros [Hids Hissued Hkeys Hix] Hdocs Hfree. constructor; simpl.
  - rewrite Hdocs in Hids. rewrite map_app in *. exact Hids.
  - intros d Hd. apply in_app_or in Hd as [Hd | [<- | Hd]].
    + apply Hissued. rewrite Hdocs. apply in_or_app. now left.
    + simpl. apply (Hissued x). rewrite Hdocs. apply in_or_app.
      right. now left.
    + apply Hissued. rewrite Hdocs. apply in_or_app. right. now right.
  - apply keys_unique_NoDup. apply keys_unique_NoDup in Hkeys.
    rewrite Hdocs in Hkeys. simpl. rewrite keys_app in *.
    apply (NoDup_replace _ _ (student_id (fields x)) _ Hkeys).
    rewrite <- keys_app, <- holds_value_keys. simpl. congruence.
  - exact Hix.
Qed.

Lemma consistent_remove (coll : Collection) (before after : list Document)
  (x : Document) :
  consistent coll ->
  documents coll = before ++ x :: after ->
  consistent (mkCollection (before ++ after) (indexes coll) (next_id coll)).
Proof.
  intros [Hids Hissued Hkeys Hix] Hdocs. constructor; simpl.
  - rewrite Hdocs in Hids. rewrite map_app in *. simpl in Hids.
    now apply NoDup_drop in Hids.
  - intros d Hd. apply Hissued. rewrite Hdocs.
    apply in_app_or in Hd as [Hd | Hd]; apply in_or_app;
      [now left | right; now right].
  - apply keys_unique_NoDup. apply keys_unique_NoDup in Hkeys.
    rewrite Hdocs in Hkeys. simpl. rewrite keys_app in *.
    now apply NoDup_drop in Hkeys.
  - exact Hix.
Qed.

(** *** Index creation *)

Lemma index_on_some (f : Field) (ixs : list Index) (ix : Index) :
  index_on f ixs = Some ix -> In ix ixs /\ key ix = f.
Proof.
  intros H. apply find_some in H as [Hin Hk].
  now apply field_eqb_eq in Hk.
Qed.

(** Over a state of the service, an index of the service is created or
    found: nothing is thrown, and the records stay. *)
Lemma createIndex_own (coll : Collection) (f : Field) :
  consistent coll ->
  exists coll', createIndex coll f (field_eqb f f_student_id) = Ok coll'
    /\ consistent coll'
    /\ documents coll' = documents coll /\ next_id coll' = next_id coll
    /\ In (mkIndex f (field_eqb f f_student_id)) (indexes coll')
    /\ (forall ix, In ix (indexes coll) -> In ix (indexes coll')).
Proof.
  intros Hc. unfold createIndex.
  destruct (index_on f (indexes coll)) as [ix|] eqn:Hix.
  - apply index_on_some in Hix as [Hin Hk].
    pose proof (indexes_own coll Hc ix Hin) as Hu. rewrite Hk in Hu.
    rewrite Hu, Bool.eqb_reflx. exists coll.
    split; [reflexivity|]. split; [exact Hc|]. repeat split; auto.
    destruct ix as [k u]. simpl in *. now subst.
  - assert (Hd : field_eqb f f_student_id
                 && negb (distinct_on f (documents coll)) = false).
    { destruct (field_eqb f f_student_id) eqn:Hf; [|reflexivity].
      apply field_eqb_eq in Hf. subst f.
      pose proof (keys_distinct coll Hc) as Hk. unfold keys_unique in Hk.
      now rewrite Hk. }
    rewrite Hd. eexists. split; [reflexivity|]. split.
    { destruct Hc as [Hids Hissued Hkeys Hown].
      constructor; simpl; auto.
      intros ix Hin. apply in_app_or in Hin as [Hin | [<- | []]]; auto. }
    simpl. repeat split; auto.
    + apply in_or_app. right. now left.
    + intros ix Hin. apply in_or_app. now left.
Qed.

(** Start-up keeps the records and builds the unique index on the natural
    key. *)
Lemma connectToMongo_consistent (coll : Collection) :
  consistent coll ->
  consistent (connectToMongo coll)
  /\ documents (connectToMongo coll) = documents coll
  /\ next_id (connectToMongo coll) = next_id coll
  /\ key_index_built (connectToMongo coll).
Proof.
  intros Hc. unfold connectToMongo, createIndexes, key_index_built.
  destruct (createIndex_own coll f_student_id Hc)
    as (c1 & E1 & Hc1 & Hd1 & Hn1 & Hi1 & _).
  destruct (createIndex_own c1 f_firstname Hc1)
    as (c2 & E2 & Hc2 & Hd2 & Hn2 & _ & Hk2).
  destruct (createIndex_own c2 f_lastname Hc2)
    as (c3 & E3 & Hc3 & Hd3 & Hn3 & _ & Hk3).
  destruct (createIndex_own c3 f_nickname Hc3)
    as (c4 & E4 & Hc4 & Hd4 & Hn4 & _ & Hk4).
  simpl in E1, E2, E3, E4, Hi1. rewrite E1, E2, E3, E4.
  split; [exact Hc4|]. split; [congruence|]. split; [congruence|]. auto.
Qed.

End StoreStates.

(* ================================================================= *)
(** ** Create, update, delete *)

Module Mutations.
Import Js Mongo Server Spec MongoFacts StoreStates.

Lemma NoDup_map_eq {A B} (f : A -> B) (l : list A) (x y : A) :
  NoDup (map f l) -> In x l -> In y l -> f x = f y -> x = y.
Proof.
  induction l as [|a l IH]; simpl; intros Hnd Hx Hy Hxy; [contradiction|].
  inversion Hnd as [|? ? Ha Hl]; subst.
  destruct Hx as [<- | Hx], Hy as [<- | Hy]; auto.
  - exfalso. apply Ha. rewrite Hxy. now apply in_map.
  - exfalso. apply Ha. rewrite <- Hxy. now apply in_map.
Qed.

Lemma not_has_id_fresh (coll : Collection) :
  consistent coll -> ~ has_id coll (next_id coll).
Proof.
  intros Hc (d & Hd & Hid). apply (ids_issued coll Hc) in Hd. lia.
Qed.

(** *** [POST /students] *)

Lemma post_conflict (coll : Collection) (body : Student) :
  key_taken coll (student_id body) ->
  post_students coll body
  = (coll, Ok (Response (Text "Student ID already exists") 400)).
Proof.
  intros H. unfold post_students.
  now destruct (findOne_key_some coll _ H) as [d ->].
Qed.

Lemma post_created (coll : Collection) (body : Student) :
  service_indexes coll -> ~ key_taken coll (student_id body) ->
  post_students coll body
  = (mkCollection (documents coll ++ [mkDocument (next_id coll) body])
       (indexes coll) (N.succ (next_id coll)),
     Ok (Json (mkDocument (next_id coll) body))).
Proof.
  intros Hix Hfree. unfold post_students.
  rewrite (proj2 (findOne_key_none coll _) Hfree).
  now rewrite (insertOne_ok coll body Hix Hfree).
Qed.

(** *** [PUT /students/:id] *)

Lemma others_free (coll : Collection) (oid : ObjectId) (k : string)
  (before after : list Document) (x : Document) :
  documents coll = before ++ x :: after ->
  (forall d, In d (before ++ after) -> _id d <> oid) ->
  ~ key_taken_by_other coll oid k ->
  holds_value f_student_id k (before ++ after) = false.
Proof.
  intros Hdocs Hothers Hfree.
  destruct (holds_value f_student_id k (before ++ after)) eqn:H;
    [|reflexivity].
  apply holds_value_In in H as (d & Hd & Hk). exfalso. apply Hfree.
  exists d. repeat split; auto. rewrite Hdocs.
  apply in_app_or in Hd as [Hd | Hd]; apply in_or_app;
    [now left | right; now right].
Qed.

Lemma updateOne_missing (coll : Collection) (oid : ObjectId) (s : Student) :
  ~ has_id coll oid -> updateOne coll (IdEq oid) s = Ok (coll, 0).
Proof.
  intros H. unfold updateOne.
  replace (split_first (matches (IdEq oid)) (documents coll)) with
    (@None (list Document * Document * list Document)); [reflexivity|].
  symmetry. apply split_first_none. intros d Hd. simpl.
  apply N.eqb_neq. intros Hid. apply H. now exists d.
Qed.

Lemma split_first_found (coll : Collection) (oid : ObjectId) :
  has_id coll oid ->
  exists before x after,
    split_first (matches (IdEq oid)) (documents coll)
    = Some (before, x, after).
Proof.
  intros (d & Hd & Hid).
  destruct (split_first (matches (IdEq oid)) (documents coll))
    as [[[b x] a]|] eqn:H.
  - now exists b, x, a.
  - pose proof (proj1 (split_first_none _ _) H d Hd) as Hn. simpl in Hn.
    apply N.eqb_neq in Hn. contradiction.
Qed.

Lemma updateOne_by_id (coll : Collection) (oid : ObjectId) (s : Student) :
  consistent coll -> has_id coll oid ->
  ~ key_taken_by_other coll oid (student_id s) ->
  updateOne coll (IdEq oid) s
  = Ok (mkCollection (replace_fields oid s (documents coll))
          (indexes coll) (next_id coll), 1)
  /\ consistent (mkCollection (replace_fields oid s (documents coll))
                   (indexes coll) (next_id coll)).
Proof.
  intros Hc Hid Hfree.
  destruct (split_first_found coll oid Hid) as (b & x & a & Hsplit).
  destruct (split_by_id oid _ b a x (ids_distinct coll Hc) Hsplit)
    as (Hdocs & Hx & Hothers).
  pose proof (others_free coll oid _ b a x Hdocs Hothers Hfree) as Hfree'.
  unfold updateOne. rewrite Hsplit.
  rewrite (admissible_free_key _ _ _ (indexes_own coll Hc) Hfree').
  rewrite Hdocs, (replace_fields_split oid s b a x Hx Hothers), <- Hx.
  split; [reflexivity|].
  now apply consistent_replace.
Qed.

(** An id that is not an [ObjectId] is refused before the store is asked:
    the update answers 400 with the message of the parser. *)
Lemma update_malformed_id (coll : Collection) (id : string) (body : Student)
  (m : Message) :
  new_ObjectId id = Throw m ->
  put_students_id coll id body = (coll, Ok (Response m 400)).
Proof. intros H. unfold put_students_id. now rewrite H. Qed.

(** A record's own natural key is held by no other record. *)
Lemma own_key_not_taken (coll : Collection) (d : Document) :
  consistent coll -> In d (documents coll) ->
  ~ key_taken_by_other coll (_id d) (student_id (fields d)).
Proof.
  intros Hc Hd (d' & Hd' & Hk & Hid). apply Hid. f_equal.
  apply (NoDup_map_eq (fun d => student_id (fields d)) (documents coll));
    auto.
  apply keys_unique_NoDup. apply (keys_distinct coll Hc).
Qed.

(** *** [DELETE /students/:id] *)

Lemma deleteOne_missing (coll : Collection) (oid : ObjectId) :
  ~ has_id coll oid -> deleteOne coll (IdEq oid) = (coll, 0).
Proof.
  intros H. unfold deleteOne.
  replace (split_first (matches (IdEq oid)) (documents coll)) with
    (@None (list Document * Document * list Document)); [reflexivity|].
  symmetry. apply split_first_none. intros d Hd. simpl.
  apply N.eqb_neq. intros Hid. apply H. now exists d.
Qed.

Lemma deleteOne_by_id (coll : Collection) (oid : ObjectId) :
  consistent coll -> has_id coll oid ->
  exists before x after,
    documents coll = before ++ x :: after /\ _id x = oid
    /\ (forall d, In d (before ++ after) -> _id d <> oid)
    /\ deleteOne coll (IdEq oid)
       = (mkCollection (before ++ after) (indexes coll) (next_id coll), 1)
    /\ consistent (mkCollection (before ++ after) (indexes coll)
                     (next_id coll)).
Proof.
  intros Hc Hid.
  destruct (split_first_found coll oid Hid) as (b & x & a & Hsplit).
  destruct (split_by_id oid _ b a x (ids_distinct coll Hc) Hsplit)
    as (Hdocs & Hx & Hothers).
  exists b, x, a. repeat (split; [assumption|]). split.
  - unfold deleteOne. now rewrite Hsplit.
  - now apply (consistent_remove coll b a x).
Qed.

(** The delete of an id that is not an [ObjectId] throws the message of
    the parser. *)
Lemma delete_malformed_id (coll : Collection) (id : string) (m : Message) :
  new_ObjectId id = Throw m ->
  delete_students_id coll id = (coll, Throw m).
Proof. intros H. unfold delete_students_id. now rewrite H. Qed.

(** *** The handlers keep the store consistent *)

Lemma post_consistent (coll : Collection) (body : Student) :
  consistent coll -> consistent (fst (post_students coll body)).
Proof.
  intros Hc. unfold post_students.
  destruct (findOne coll (FieldEq f_student_id (student_id body))) eqn:Hf;
    [exact Hc|].
  apply findOne_key_none in Hf.
  rewrite (insertOne_ok coll body (indexes_own coll Hc) Hf). simpl.
  now apply consistent_insert.
Qed.

Lemma has_id_dec (coll : Collection) (oid : ObjectId) :
  has_id coll oid \/ ~ has_id coll oid.
Proof.
  destruct (split_first (matches (IdEq oid)) (documents coll))
    as [[[b x] a]|] eqn:H.
  - left. apply split_first_some in H as (Hdocs & Hx & _).
    exists x. split.
    + rewrite Hdocs. apply in_or_app. right. now left.
    + simpl in Hx. now apply N.eqb_eq.
  - right. intros (d & Hd & Hid).
    pose proof (proj1 (split_first_none _ _) H d Hd) as Hn. simpl in Hn.
    apply N.eqb_neq in Hn. contradiction.
Qed.

Lemma put_consistent (coll : Collection) (id : string) (body : Student) :
  consistent coll -> consistent (fst (put_students_id coll id body)).
Proof.
  intros Hc. unfold put_students_id.
  destruct (new_ObjectId id) as [oid|]; [|exact Hc].
  destruct (findOne coll (And (FieldEq f_student_id (student_id body))
                            (IdNe oid))) eqn:Hf; [exact Hc|].
  apply findOne_other_none in Hf.
  destruct (has_id_dec coll oid) as [Hid | Hid].
  - destruct (updateOne_by_id coll oid body Hc Hid Hf) as [-> Hc'].
    exact Hc'.
  - rewrite (updateOne_missing coll oid body Hid). exact Hc.
Qed.

Lemma delete_consistent (coll : Collection) (id : string) :
  consistent coll -> consistent (fst (delete_students_id coll id)).
Proof.
  intros Hc. unfold delete_students_id.
  destruct (new_ObjectId id) as [oid|]; [|exact Hc].
  destruct (has_id_dec coll oid) as [Hid | Hid].
  - destruct (deleteOne_by_id coll oid Hc Hid)
      as (b & x & a & _ & _ & _ & -> & Hc'). exact Hc'.
  - rewrite (deleteOne_missing coll oid Hid). exact Hc.
Qed.

Lemma serve_consistent (coll : Collection) (c : Call) :
  consistent coll -> consistent (serve coll c).
Proof.
  destruct c; simpl;
    [apply post_consistent | apply put_consistent | apply delete_consistent].
Qed.

(** Every state that the service reaches from an empty collection, through
    start-up and any sequence of requests, is consistent. *)
Lemma reachable_consistent (cs : list Call) :
  consistent (serve_all (connectToMongo Sample.empty) cs).
Proof.
  unfold serve_all.
  assert (H : consistent (connectToMongo Sample.empty))
    by apply (connectToMongo_consistent _ consistent_empty).
  revert H. generalize (connectToMongo Sample.empty).
  induction cs as [|c cs IH]; intros coll Hc; simpl; [exact Hc|].
  apply IH. now apply serve_consistent.
Qed.

Lemma one_record_consistent : consistent Sample.one_record.
Proof. apply (reachable_consistent [Post Sample.anne]). Qed.

Lemma two_records_consistent : consistent Sample.two_records.
Proof. apply (reachable_consistent [Post Sample.anne; Post Sample.bob]). Qed.

End Mutations.

(* ================================================================= *)
(** ** Properties of create, update and delete *)

Module MutationProps.
Import Js Mongo Server Spec MongoFacts StoreStates Mutations.

(** C1.  Creating a record whose natural key ([student_id]) is held by an
    existing record answers 400 "Student ID already exists" and leaves the
    store as it was (so the record count is unchanged); creating a record
    whose natural key is free persists it as the last record, and the answer
    is the persisted record with the id that the store generated, an id that
    no record had before. *)
Theorem create_conflict_or_persisted (coll : Collection) (body : Student) :
  consistent coll ->
  (key_taken coll (student_id body) ->
   post_students coll body
   = (coll, Ok (Response (Text "Student ID already exists") 400)))
  /\ (~ key_taken coll (student_id body) ->
      exists coll' d,
        post_students coll body = (coll', Ok (Json d))
        /\ fields d = body
        /\ _id d = next_id coll /\ ~ has_id coll (_id d)
        /\ documents coll' = documents coll ++ [d]
        /\ List.length (documents coll') = S (List.length (documents coll))
        /\ consistent coll').
Proof.
  intros Hc. split; intros Hk.
  - now apply post_conflict.
  - eexists. exists (mkDocument (next_id coll) body).
    split; [apply (post_created coll body (indexes_own coll Hc) Hk)|].
    simpl. repeat (split; [reflexivity|]).
    split; [now apply not_has_id_fresh|]. split; [reflexivity|].
    split; [rewrite length_app; simpl; lia|].
    now apply consistent_insert.
Qed.

Lemma create_conflict_or_persisted_witness :
  post_students Sample.one_record Sample.anne
  = (Sample.one_record, Ok (Response (Text "Student ID already exists") 400))
  /\ exists coll' d,
       post_students Sample.one_record Sample.bob = (coll', Ok (Json d))
       /\ fields d = Sample.bob
       /\ _id d = next_id Sample.one_record
       /\ ~ has_id Sample.one_record (_id d)
       /\ documents coll' = documents Sample.one_record ++ [d]
       /\ List.length (documents coll')
          = S (List.length (documents Sample.one_record))
       /\ consistent coll'.
Proof.
  split.
  - apply (proj1 (create_conflict_or_persisted Sample.one_record Sample.anne
                    one_record_consistent)).
    eexists. split; [left; reflexivity | reflexivity].
  - apply (proj2 (create_conflict_or_persisted Sample.one_record Sample.bob
                    one_record_consistent)).
    intros (d & [<- | []] & Hk). discriminate Hk.
Defined.

(** C5, counterexample.  An update that targets the id "nonsense": no
    record has that id and no record holds the new natural key, yet the
    answer is not 404 "Student not found" but 400 with the message of the
    id parser, which throws inside the [try] before the store is asked. *)
Lemma update_malformed_id_is_not_404 :
  put_students_id Sample.two_records "nonsense"
    (mkStudent "6709" "Cat" "Fox" "Ca")
  = (Sample.two_records, Ok (Response (Native InvalidObjectId) 400))
  /\ (forall d, In d (documents Sample.two_records) ->
        new_ObjectId "nonsense" <> Ok (_id d))
  /\ ~ key_taken Sample.two_records "6709"
  /\ status_of (snd (put_students_id Sample.two_records "nonsense"
                       (mkStudent "6709" "Cat" "Fox" "Ca")))
     <> 404.
Proof.
  split; [reflexivity|]. split; [|split].
  - intros d _. discriminate.
  - intros (d & [<- | [<- | []]] & Hk); discriminate Hk.
  - vm_compute. discriminate.
Qed.

(** C5, amended.  An update of the record with id [id] to the fields
    [body].  When [id] is not an [ObjectId] (24 hexadecimal digits), the
    answer is 400 with the message of the id parser and the store is
    unchanged.  When it is the [ObjectId] [oid]: if another record holds
    the new natural key, the answer is 400 "Student ID already exists" and
    the store is unchanged; otherwise, if no record has the id, the answer
    is 404 "Student not found" and the store is unchanged; otherwise the
    four fields of that record are replaced, its id and every other record
    stay, and the updated record is returned.  In particular an update that
    keeps the record's own natural key succeeds. *)
Theorem update_conflict_missing_or_replaced (coll : Collection)
  (id : string) (body : Student) :
  consistent coll ->
  (forall m, new_ObjectId id = Throw m ->
     put_students_id coll id body = (coll, Ok (Response m 400)))
  /\ (forall oid, new_ObjectId id = Ok oid ->
      (key_taken_by_other coll oid (student_id body) ->
       put_students_id coll id body
       = (coll, Ok (Response (Text "Student ID already exists") 400)))
      /\ (~ key_taken_by_other coll oid (student_id body) ->
          ~ has_id coll oid ->
          put_students_id coll id body
          = (coll, Ok (Response (Text "Student not found") 404)))
      /\ (~ key_taken_by_other coll oid (student_id body) ->
          has_id coll oid ->
          put_students_id coll id body
          = (mkCollection (replace_fields oid body (documents coll))
               (indexes coll) (next_id coll),
             Ok (Json (mkUpdated body id))))
      /\ (forall d, In d (documents coll) -> _id d = oid ->
          student_id body = student_id (fields d) ->
          put_students_id coll id body
          = (mkCollection (replace_fields oid body (documents coll))
               (indexes coll) (next_id coll),
             Ok (Json (mkUpdated body id))))).
Proof.
  intros Hc. split; [intros m; apply update_malformed_id|].
  intros oid Hparse.
  assert (Hreplaced :
    ~ key_taken_by_other coll oid (student_id body) -> has_id coll oid ->
    put_students_id coll id body
    = (mkCollection (replace_fields oid body (documents coll))
         (indexes coll) (next_id coll), Ok (Json (mkUpdated body id)))).
  { intros Hfree Hid. unfold put_students_id. rewrite Hparse.
    rewrite (proj2 (findOne_other_none coll oid _) Hfree).
    now destruct (updateOne_by_id coll oid body Hc Hid Hfree) as [-> _]. }
  repeat split.
  - intros Hother. unfold put_students_id. rewrite Hparse.
    now destruct (findOne_other_some coll oid _ Hother) as [d ->].
  - intros Hfree Hid. unfold put_students_id. rewrite Hparse.
    rewrite (proj2 (findOne_other_none coll oid _) Hfree).
    now rewrite (updateOne_missing coll oid body Hid).
  - exact Hreplaced.
  - intros d Hd Hid Hk. apply Hreplaced.
    + rewrite Hk, <- Hid. now apply own_key_not_taken.
    + now exists d.
Qed.

Lemma update_conflict_missing_or_replaced_witness :
  put_students_id Sample.two_records "67"
    (mkStudent "6702" "Robert" "Ray" "Rob")
  = (Sample.two_records, Ok (Response (Native InvalidObjectId) 400))
  /\ put_students_id Sample.two_records Sample.id2
       (mkStudent "6701" "Bob" "Ray" "Bo")
     = (Sample.two_records,
        Ok (Response (Text "Student ID already exists") 400))
  /\ put_students_id Sample.two_records Sample.id9
       (mkStudent "6709" "Cat" "Fox" "Ca")
     = (Sample.two_records, Ok (Response (Text "Student not found") 404))
  /\ put_students_id Sample.two_records Sample.id2
       (mkStudent "6702" "Robert" "Ray" "Rob")
     = (mkCollection
          (replace_fields 2%N (mkStudent "6702" "Robert" "Ray" "Rob")
             (documents Sample.two_records))
          (indexes Sample.two_records) (next_id Sample.two_records),
        Ok (Json (mkUpdated (mkStudent "6702" "Robert" "Ray" "Rob")
                    Sample.id2))).
Proof.
  split; [|split; [|split]].
  - apply (proj1 (update_conflict_missing_or_replaced Sample.two_records
                    "67" _ two_records_consistent)).
    reflexivity.
  - apply (proj1 (proj2 (update_conflict_missing_or_replaced
                    Sample.two_records Sample.id2 _ two_records_consistent)
                    2%N eq_refl)).
    eexists. split; [left; reflexivity|]. split; [reflexivity | discriminate].
  - apply (proj1 (proj2 (proj2 (update_conflict_missing_or_replaced
                    Sample.two_records Sample.id9 _ two_records_consistent)
                    9%N eq_refl))).
    + intros (d & [<- | [<- | []]] & Hk & _); discriminate Hk.
    + intros (d & [<- | [<- | []]] & Hid); discriminate Hid.
  - apply (proj2 (proj2 (proj2 (proj2 (update_conflict_missing_or_replaced
                    Sample.two_records Sample.id2 _ two_records_consistent)
                    2%N eq_refl)))
             (mkDocument 2%N Sample.bob)).
    + right. left. reflexivity.
    + reflexivity.
    + reflexivity.
Defined.

(** C6, as the code has it.  Deleting an id that no record has throws a
    plain [Error] "Can't find this student to delete.", which leaves the
    handler and is answered with status 500, not with a 404 answer as the
    update route gives; the store is unchanged.  Deleting the id of a record
    removes that record, keeps the others in order, and returns the
    confirmation message. *)
Theorem delete_missing_throws_or_removed (coll : Collection) (id : string)
  (oid : ObjectId) :
  consistent coll -> new_ObjectId id = Ok oid ->
  (~ has_id coll oid ->
   delete_students_id coll id
   = (coll, Throw (Text "Can't find this student to delete."))
   /\ status_of (snd (delete_students_id coll id)) = 500)
  /\ (has_id coll oid ->
      exists before x after,
        documents coll = before ++ x :: after /\ _id x = oid
        /\ delete_students_id coll id
           = (mkCollection (before ++ after) (indexes coll) (next_id coll),
              Ok (Json (mkNotice "Student deleted successfully")))
        /\ ~ has_id (fst (delete_students_id coll id)) oid).
Proof.
  intros Hc Hparse. split; intros Hid.
  - unfold delete_students_id. rewrite Hparse.
    rewrite (deleteOne_missing coll oid Hid). simpl. auto.
  - destruct (deleteOne_by_id coll oid Hc Hid)
      as (b & x & a & Hdocs & Hx & Hothers & Hdel & _).
    exists b, x, a. unfold delete_students_id. rewrite Hparse, Hdel. simpl.
    repeat split; auto.
    intros (d & Hd & Hd'). now apply (Hothers d).
Qed.

Lemma delete_missing_throws_or_removed_witness :
  (delete_students_id Sample.one_record Sample.id9
   = (Sample.one_record, Throw (Text "Can't find this student to delete."))
   /\ status_of (snd (delete_students_id Sample.one_record Sample.id9)) = 500)
  /\ exists before x after,
       documents Sample.two_records = before ++ x :: after /\ _id x = 1%N
       /\ delete_students_id Sample.two_records Sample.id1
          = (mkCollection (before ++ after) (indexes Sample.two_records)
               (next_id Sample.two_records),
             Ok (Json (mkNotice "Student deleted successfully")))
       /\ ~ has_id (fst (delete_students_id Sample.two_records Sample.id1))
            1%N.
Proof.
  split.
  - apply (proj1 (delete_missing_throws_or_removed Sample.one_record
                    Sample.id9 9%N one_record_consistent eq_refl)).
    intros (d & [<- | []] & Hid). discriminate Hid.
  - apply (proj2 (delete_missing_throws_or_removed Sample.two_records
                    Sample.id1 1%N two_records_consistent eq_refl)).
    eexists. split; [left; reflexivity | reflexivity].
Defined.

(** C7, counterexample.  A create request with an empty [firstname] and a
    free natural key is not refused: the record is persisted and returned
    with status 200. *)
Lemma create_empty_firstname_persisted :
  firstname Sample.nameless = EmptyString
  /\ exists coll' d,
       post_students Sample.one_record Sample.nameless = (coll', Ok (Json d))
       /\ In d (documents coll')
       /\ firstname (fields d) = EmptyString
       /\ status_of (snd (post_students Sample.one_record Sample.nameless))
          = 200.
Proof.
  split; [reflexivity|]. eexists. eexists.
  split; [reflexivity|]. split; [|split; reflexivity].
  right. left. reflexivity.
Qed.

(** C7, amended.  The create operation does not look at [firstname]: a
    request with an empty [firstname] is answered as any other, 400
    "Student ID already exists" with the store unchanged when the natural
    key is taken, and otherwise the record is persisted, empty first name
    included, and returned.  No validation failure exists. *)
Theorem create_does_not_validate (coll : Collection) (body : Student) :
  consistent coll -> firstname body = EmptyString ->
  (key_taken coll (student_id body) ->
   post_students coll body
   = (coll, Ok (Response (Text "Student ID already exists") 400)))
  /\ (~ key_taken coll (student_id body) ->
      post_students coll body
      = (mkCollection (documents coll ++ [mkDocument (next_id coll) body])
           (indexes coll) (N.succ (next_id coll)),
         Ok (Json (mkDocument (next_id coll) body)))).
Proof.
  intros Hc _. split; intros Hk.
  - now apply post_conflict.
  - apply (post_created coll body (indexes_own coll Hc) Hk).
Qed.

Lemma create_does_not_validate_witness :
  post_students Sample.one_record (mkStudent "6701" "" "" "")
  = (Sample.one_record, Ok (Response (Text "Student ID already exists") 400))
  /\ post_students Sample.one_record Sample.nameless
     = (mkCollection
          (documents Sample.one_record
           ++ [mkDocument (next_id Sample.one_record) Sample.nameless])
          (indexes Sample.one_record) (N.succ (next_id Sample.one_record)),
        Ok (Json (mkDocument (next_id Sample.one_record) Sample.nameless))).
Proof.
  split.
  - apply (proj1 (create_does_not_validate Sample.one_record
                    (mkStudent "6701" "" "" "") one_record_consistent
                    eq_refl)).
    eexists. split; [left; reflexivity | reflexivity].
  - apply (proj2 (create_does_not_validate Sample.one_record Sample.nameless
                    one_record_consistent eq_refl)).
    intros (d & [<- | []] & Hk). discriminate Hk.
Defined.

End MutationProps.

(* ================================================================= *)
(** ** Properties of list and search *)

Module QueryProps.
Import Js Mongo Server Spec Tactics JsFacts MongoFacts StoreStates Mutations.

Lemma or_else_nonzero (z d : Z) : z <> 0 -> or_else (Int z) d = z.
Proof.
  intros H. unfold or_else. destruct (z =? 0) eqn:E; [|reflexivity].
  apply Z.eqb_eq in E. contradiction.
Qed.

Lemma filter_everything (ds : list Document) :
  List.filter (matches Everything) ds = ds.
Proof. apply filter_all. reflexivity. Qed.

(** The answer of the list route for a page of at least 1 and a positive
    limit. *)
Lemma get_students_valid (coll : Collection) (pg lim : Z) :
  1 <= pg -> 0 < lim ->
  get_students coll (mkQuery (Int pg) (Int lim))
  = Ok (Json (mkPage
                (firstn (Z.to_nat lim)
                   (skipn (Z.to_nat ((pg - 1) * lim)) (documents coll)))
                (mkPagination (Z.of_nat (List.length (documents coll))) pg lim
                   (ceil_div (Z.of_nat (List.length (documents coll))) lim)))).
Proof.
  intros Hpg Hlim. unfold get_students. cbn [query_page query_limit].
  rewrite !or_else_nonzero by lia.
  unfold toArray, countDocuments. simpl. rewrite filter_everything.
  destruct ((pg - 1) * lim <? 0) eqn:Hs; [apply Z.ltb_lt in Hs; nia|].
  destruct (lim =? 0) eqn:Hz; [apply Z.eqb_eq in Hz; lia|].
  now rewrite Z.abs_eq by lia.
Qed.

(** C4.  For a page number of at least 1 and a positive limit, the list
    operation returns the records left after skipping [(page-1)*limit]
    records of the store's order, cut to the first [limit] of them (so at
    most [limit] records), with the pagination data: [total] the number of
    all records, the page and the limit as asked, and [totalPages] the
    ceiling of [total / limit], which is the least number of pages of
    [limit] records that hold [total] records. *)
Theorem list_page (coll : Collection) (pg lim : Z) :
  1 <= pg -> 0 < lim ->
  let all := documents coll in
  let shown := firstn (Z.to_nat lim) (skipn (Z.to_nat ((pg - 1) * lim)) all) in
  let count := Z.of_nat (List.length all) in
  get_students coll (mkQuery (Int pg) (Int lim))
  = Ok (Json (mkPage shown (mkPagination count pg lim (ceil_div count lim))))
  /\ Z.of_nat (List.length shown) <= lim
  /\ (ceil_div count lim - 1) * lim < count <= ceil_div count lim * lim.
Proof.
  intros Hpg Hlim all shown count. split; [|split].
  - unfold get_students. cbn [query_page query_limit].
    rewrite !or_else_nonzero by lia.
    unfold toArray, countDocuments. simpl.
    rewrite filter_everything.
    destruct ((pg - 1) * lim <? 0) eqn:Hs; [apply Z.ltb_lt in Hs; nia|].
    destruct (lim =? 0) eqn:Hz; [apply Z.eqb_eq in Hz; lia|].
    rewrite Z.abs_eq by lia. reflexivity.
  - subst shown. rewrite length_firstn. lia.
  - now apply ceil_div_bounds.
Qed.

Lemma list_page_witness :
  get_students Sample.two_records (mkQuery (Int 2) (Int 1))
  = Ok (Json (mkPage [mkDocument 2%N Sample.bob] (mkPagination 2 2 1 2)))
  /\ Z.of_nat (List.length [mkDocument 2%N Sample.bob]) <= 1
  /\ (2 - 1) * 1 < 2 <= 2 * 1.
Proof.
  apply (list_page Sample.two_records 2 1); lia.
Defined.

(** Without parameters the list operation shows page 1 with 10 records a
    page. *)
Lemma list_defaults (coll : Collection) :
  get_students coll (mkQuery NaN NaN)
  = get_students coll (mkQuery (Int 1) (Int 10)).
Proof. reflexivity. Qed.

(** *** Search *)

(** The filter of a text without special characters. *)
Lemma searchQuery_ordinary (q : string) :
  ordinary q = true ->
  searchQuery q
  = Some (Or (FieldRegex f_student_id (literal q))
            (Or (FieldRegex f_firstname (literal q))
               (Or (FieldRegex f_lastname (literal q))
                  (FieldRegex f_nickname (literal q))))).
Proof.
  intros H. unfold searchQuery. now rewrite (RegExp_i_ordinary q H).
Qed.



Lemma searchQuery_literal (q : string) :
  ordinary q = true -> searchQuery q = Some (literal_filter q).
Proof. exact (searchQuery_ordinary q). Qed.

Lemma literal_filter_matches (q : string) (d : Document) :
  matches (literal_filter q) d = true <-> some_field_contains q d.
Proof.
  simpl. unfold some_field_contains.
  rewrite !orb_true_iff, !test_literal. reflexivity.
Qed.

(** The answer of the search route for a text without special characters,
    a page of at least 1 and a positive limit: the page is cut out of the
    hits as the plan arranges them, the total is their number. *)
Lemma search_answer (plan : Plan) (coll : Collection) (text q : string)
  (pg lim : Z) :
  decodeURIComponent text = Ok q -> ordinary q = true ->
  1 <= pg -> 0 < lim ->
  get_students_search_text plan coll text (mkQuery (Int pg) (Int lim))
  = Some (Ok (Json (mkPage
       (firstn (Z.to_nat lim)
          (skipn (Z.to_nat ((pg - 1) * lim))
             (plan (List.filter (matches (literal_filter q))
                      (documents coll)))))
       (mkPagination
          (Z.of_nat (List.length
                       (List.filter (matches (literal_filter q))
                          (documents coll))))
          pg lim
          (ceil_div
             (Z.of_nat (List.length
                          (List.filter (matches (literal_filter q))
                             (documents coll))))
             lim))))).
Proof.
  intros Ht Hq Hpg Hlim.
  unfold get_students_search_text. cbn [query_page query_limit].
  rewrite !or_else_nonzero by lia.
  rewrite Ht, (searchQuery_literal q Hq).
  unfold toArray, countDocuments.
  cbn [cursor_skip cursor_limit cursor_filter Mongo.limit Mongo.skip
       collation find bind catch_400].
  destruct ((pg - 1) * lim <? 0) eqn:Hs; [apply Z.ltb_lt in Hs; nia|].
  destruct (lim =? 0) eqn:Hz; [apply Z.eqb_eq in Hz; lia|].
  now rewrite Z.abs_eq by lia.
Qed.

(** A lawful plan returns the documents it was given and no other. *)
Lemma lawful_In (plan : Plan) (hits : list Document) (d : Document) :
  lawful plan -> In d (plan hits) <-> In d hits.
Proof.
  intros H. split; intros Hd.
  - exact (Permutation_in d (H hits) Hd).
  - exact (Permutation_in d (Permutation_sym (H hits)) Hd).
Qed.

Lemma lawful_length (plan : Plan) (hits : list Document) :
  lawful plan -> List.length (plan hits) = List.length hits.
Proof. intros H. exact (Permutation_length (H hits)). Qed.


Lemma lawful_natural : lawful natural.
Proof. intros hits. apply Permutation_refl. Qed.

Lemma lawful_newest_first : lawful Sample.newest_first.
Proof.
  intros hits. apply Permutation_sym. apply Permutation_rev.
Qed.










End QueryProps.

(* ================================================================= *)
(** ** The unique index on the natural key *)

Module IndexProps.
Import Js Mongo Server Spec MongoFacts StoreStates Mutations.

(** With the index built, the store refuses to insert a taken key. *)
Lemma insert_refused (coll : Collection) (s : Student) :
  key_index_built coll -> key_taken coll (student_id s) ->
  apply_op coll (Insert s) = (coll, true).
Proof.
  intros Hix (d & Hd & Hk). unfold apply_op, insertOne.
  rewrite (admissible_taken_key _ _ _ Hix); [reflexivity|].
  apply holds_value_In. now exists d.
Qed.

(** With the index built, the store refuses to give a record the key of
    another. *)
Lemma update_refused (coll : Collection) (oid : ObjectId) (s : Student) :
  key_index_built coll -> has_id coll oid ->
  key_taken_by_other coll oid (student_id s) ->
  apply_op coll (Update oid s) = (coll, true).
Proof.
  intros Hix Hid (d & Hd & Hk & Hne). unfold apply_op, updateOne.
  destruct (split_first_found coll oid Hid) as (b & x & a & Hsplit).
  rewrite Hsplit. apply split_first_some in Hsplit as (Hdocs & Hx & _).
  simpl in Hx. apply N.eqb_eq in Hx.
  rewrite (admissible_taken_key _ _ _ Hix); [reflexivity|].
  apply holds_value_In. exists d. split; [|exact Hk].
  rewrite Hdocs in Hd. apply in_app_or in Hd as [Hd | [<- | Hd]].
  - apply in_or_app. now left.
  - contradiction.
  - apply in_or_app. now right.
Qed.

(** With the index built, no operation of the store makes two records
    share a natural key, and none drops the index. *)
Lemma apply_op_guarded (coll : Collection) (op : StoreOp) :
  key_index_built coll -> keys_unique coll ->
  key_index_built (fst (apply_op coll op))
  /\ keys_unique (fst (apply_op coll op)).
Proof.
  intros Hix Hkeys. apply keys_unique_NoDup in Hkeys.
  destruct op as [s | oid s | oid]; simpl.
  - unfold insertOne.
    destruct (admissible (indexes coll) (documents coll) s) eqn:Hadm; simpl;
      [|split; [exact Hix | now apply keys_unique_NoDup]].
    split; [exact Hix|]. apply keys_unique_NoDup. simpl.
    rewrite keys_app. apply NoDup_snoc; [exact Hkeys|].
    rewrite <- holds_value_keys. simpl.
    now rewrite (admissible_key_free _ _ _ Hix Hadm).
  - unfold updateOne.
    destruct (split_first (matches (IdEq oid)) (documents coll))
      as [[[b x] a]|] eqn:Hsplit; simpl;
      [|split; [exact Hix | now apply keys_unique_NoDup]].
    destruct (admissible (indexes coll) (b ++ a) s) eqn:Hadm; simpl;
      [|split; [exact Hix | now apply keys_unique_NoDup]].
    split; [exact Hix|]. apply keys_unique_NoDup. simpl.
    apply split_first_some in Hsplit as (Hdocs & _ & _).
    rewrite Hdocs, keys_app in Hkeys. rewrite keys_app.
    apply (NoDup_replace _ _ (student_id (fields x)) _ Hkeys).
    rewrite <- keys_app, <- holds_value_keys. simpl.
    now rewrite (admissible_key_free _ _ _ Hix Hadm).
  - unfold deleteOne.
    destruct (split_first (matches (IdEq oid)) (documents coll))
      as [[[b x] a]|] eqn:Hsplit; simpl;
      [|split; [exact Hix | now apply keys_unique_NoDup]].
    split; [exact Hix|]. apply keys_unique_NoDup. simpl.
    apply split_first_some in Hsplit as (Hdocs & _ & _).
    rewrite Hdocs, keys_app in Hkeys. rewrite keys_app.
    apply (NoDup_drop _ _ _ Hkeys).
Qed.

Lemma apply_ops_guarded (ops : list StoreOp) (coll : Collection) :
  key_index_built coll -> keys_unique coll ->
  key_index_built (apply_ops coll ops) /\ keys_unique (apply_ops coll ops).
Proof.
  revert coll. unfold apply_ops.
  induction ops as [|op ops IH]; intros coll Hix Hkeys; simpl; [auto|].
  destruct (apply_op_guarded coll op Hix Hkeys) as [Hix' Hkeys'].
  now apply IH.
Qed.

(** C10.  Start-up builds a unique index on the natural key
    ([student_id]) and keeps the records; from then on the store itself
    keeps the natural keys distinct through every sequence of its own
    inserts, updates and deletes, with no help from the handlers' checks:
    it refuses the insert of a key that a record holds, and the update that
    would give a record the key of another, and leaves the records as they
    are when it refuses. *)
Theorem unique_index_guards_store (coll : Collection) :
  consistent coll ->
  key_index_built (connectToMongo coll)
  /\ documents (connectToMongo coll) = documents coll
  /\ forall ops,
       let now := apply_ops (connectToMongo coll) ops in
       key_index_built now /\ keys_unique now
       /\ (forall s, key_taken now (student_id s) ->
                     apply_op now (Insert s) = (now, true))
       /\ (forall oid s, has_id now oid ->
                         key_taken_by_other now oid (student_id s) ->
                         apply_op now (Update oid s) = (now, true)).
Proof.
  intros Hc.
  destruct (connectToMongo_consistent coll Hc) as (Hc' & Hdocs & _ & Hix).
  split; [exact Hix|]. split; [exact Hdocs|]. intros ops now.
  destruct (apply_ops_guarded ops _ Hix (keys_distinct _ Hc'))
    as [Hix' Hkeys'].
  repeat split; auto.
  - intros s. now apply insert_refused.
  - intros oid s. now apply update_refused.
Qed.

Lemma unique_index_guards_store_witness :
  key_index_built (connectToMongo Sample.empty)
  /\ documents (connectToMongo Sample.empty) = documents Sample.empty
  /\ forall ops,
       let now := apply_ops (connectToMongo Sample.empty) ops in
       key_index_built now /\ keys_unique now
       /\ (forall s, key_taken now (student_id s) ->
                     apply_op now (Insert s) = (now, true))
       /\ (forall oid s, has_id now oid ->
                         key_taken_by_other now oid (student_id s) ->
                         apply_op now (Update oid s) = (now, true)).
Proof.
  apply (unique_index_guards_store Sample.empty).
  constructor; simpl.
  - constructor.
  - intros d [].
  - reflexivity.
  - intros ix [].
Defined.

(** A second insert of a natural key, sent to the store directly, is
    refused after start-up. *)
Example direct_duplicate_refused :
  apply_ops (connectToMongo Sample.empty)
    [Insert Sample.anne; Insert Sample.anne; Insert Sample.bob;
     Update 2%N Sample.anne]
  = Sample.two_records.
Proof. reflexivity. Qed.

End IndexProps.

(* ================================================================= *)
(** ** Facts about the query coordinator *)

Module ClientFacts.
Import Js Client Spec Tactics.

Lemma set_page_same (p : PaginationData) (n : Z) :
  page p = n -> set_page n p = p.
Proof. intros <-. now destruct p. Qed.

Lemma commit_same (s : App) : commit s s = (s, []).
Proof.
  unfold commit, fetch_effect, reset_effect, useDebounce_effect.
  rewrite !String.eqb_refl, !Z.eqb_refl. simpl. now destruct s.
Qed.

Lemma rerender_same (k : nat) (s : App) : rerender k s s = (s, []).
Proof.
  induction k as [|k IH]; cbn [rerender]; [reflexivity|].
  now rewrite commit_same, IH.
Qed.

(** The second round of effects changes at most the loading flag. *)
Lemma commit_twice (prev cur : App) :
  let s1 := fst (commit prev cur) in
  let s2 := fst (commit cur s1) in
  commit s1 s2 = (s2, []).
Proof.
  cbn zeta. unfold commit, fetch_effect, reset_effect, useDebounce_effect.
  cbn [fst students searchText isLoading pagination debouncedSearchText timeout].
  rewrite !String.eqb_refl, !Z.eqb_refl. reflexivity.
Qed.

(** Two rounds of effects reach a state that no effect changes: more
    rounds end in the same state and send nothing more. *)
Lemma rerender_settles (n : nat) (prev cur : App) :
  rerender (2 + n) prev cur = rerender 2 prev cur.
Proof.
  pose proof (commit_twice prev cur) as H3. cbn zeta in H3.
  cbn [rerender Nat.add].
  destruct (commit prev cur) as [s1 r1]. cbn [fst] in H3.
  destruct (commit cur s1) as [s2 r2]. cbn [fst] in H3.
  destruct n as [|n]; cbn [rerender]; [reflexivity|].
  rewrite H3, rerender_same. reflexivity.
Qed.

Lemma render_changes_nothing (s : App) : render s s = (s, []).
Proof. apply rerender_same. Qed.

(** A change of page alone, while idle: the page moves and the read for it
    is sent. *)
Lemma render_page (s : App) (n : Z) :
  isLoading s = false -> n <> page (pagination s) ->
  render s (mkApp (students s) (searchText s) (isLoading s)
              (set_page n (pagination s)) (debouncedSearchText s) (timeout s))
  = (mkApp (students s) (searchText s) true (set_page n (pagination s))
       (debouncedSearchText s) (timeout s),
     [fetchStudents
        (mkApp (students s) (searchText s) false (set_page n (pagination s))
           (debouncedSearchText s) (timeout s))]).
Proof.
  intros Hidle Hn. rewrite Hidle.
  unfold render, rerender, commit, fetch_effect, reset_effect,
    useDebounce_effect.
  cbn [fst students searchText isLoading pagination debouncedSearchText
         timeout set_page page limit].
  rewrite !String.eqb_refl, !Z.eqb_refl.
  replace (page (pagination s) =? n) with false
    by (symmetry; apply Z.eqb_neq; congruence).
  reflexivity.
Qed.

(** A change of the raw text, while idle on page 1: the text is taken, the
    timeout starts over, and nothing is sent. *)
Lemma type_on_first_page (s : App) (v : string) :
  isLoading s = false -> page (pagination s) = 1 -> v <> searchText s ->
  handleSearchChange s v
  = (mkApp (students s) v false (pagination s) (debouncedSearchText s)
       (Some (delay, v)), []).
Proof.
  intros Hidle Hpage Hv. unfold handleSearchChange. rewrite Hidle.
  unfold render, rerender, commit, fetch_effect, reset_effect,
    useDebounce_effect.
  cbn [fst students searchText isLoading pagination debouncedSearchText
         timeout].
  rewrite (set_page_same _ 1 Hpage).
  rewrite !String.eqb_refl, !Z.eqb_refl.
  replace (searchText s =? v)%string with false
    by (symmetry; apply String.eqb_neq; congruence).
  cbn [andb negb].
  destruct (negb (debouncedSearchText s =? v)%string);
    cbn [page limit pagination]; rewrite ?(set_page_same _ 1 Hpage);
    rewrite !Z.eqb_refl; reflexivity.
Qed.

(** Time that ends before the timeout is due only shortens the wait. *)
Lemma elapse_short (s : App) (due ms : nat) (v : string) :
  timeout s = Some (due, v) -> (ms < due)%nat ->
  elapse s ms
  = (mkApp (students s) (searchText s) (isLoading s) (pagination s)
       (debouncedSearchText s) (Some ((due - ms)%nat, v)), []).
Proof.
  intros Ht Hms. unfold elapse. rewrite Ht.
  now replace (ms <? due)%nat with true by (symmetry; now apply Nat.ltb_lt).
Qed.

(** The timeout comes due, while idle, for the text that is shown: the
    debounced text takes the value, and when that is a change the read for
    it is sent. *)
Lemma elapse_due (s : App) (due ms : nat) :
  timeout s = Some (due, searchText s) -> (due <= ms)%nat ->
  isLoading s = false ->
  elapse s ms
  = if String.eqb (searchText s) (debouncedSearchText s) then
      (mkApp (students s) (searchText s) false (pagination s)
         (searchText s) None, [])
    else
      (mkApp (students s) (searchText s) true (pagination s)
         (searchText s) None,
       [fetchStudents
          (mkApp (students s) (searchText s) false (pagination s)
             (searchText s) None)]).
Proof.
  intros Ht Hms Hidle. unfold elapse. rewrite Ht.
  replace (ms <? due)%nat with false by (symmetry; now apply Nat.ltb_ge).
  rewrite Hidle.
  unfold render, rerender, commit, fetch_effect, reset_effect,
    useDebounce_effect.
  cbn [fst students searchText isLoading pagination debouncedSearchText
         timeout].
  rewrite !String.eqb_refl, !Z.eqb_refl.
  rewrite (String.eqb_sym (debouncedSearchText s) (searchText s)).
  destruct (searchText s =? debouncedSearchText s)%string; settled.
Qed.

Lemma run_app (s : App) (es es' : list Event) :
  run s (es ++ es')
  = (fst (run (fst (run s es)) es'),
     snd (run s es) ++ snd (run (fst (run s es)) es')).
Proof.
  revert s. induction es as [|e es IH]; intros s; cbn [run app].
  - cbn [fst snd app]. now destruct (run s es').
  - destruct (step s e) as [s1 r1]. rewrite IH.
    destruct (run s1 es) as [s2 r2]. cbn [fst snd].
    destruct (run s2 es') as [s3 r3]. cbn [fst snd].
    now rewrite app_assoc.
Qed.
End ClientFacts.

(* ================================================================= *)
(** ** Properties of page navigation and of the debounced search *)

Module ClientProps.
Import Js Client Spec Tactics ClientFacts.

(** While a burst is typed, idle on page 1, nothing is sent and the
    debounced text stays; at its end the last text waits for the full
    delay. *)
Lemma typing_is_quiet (burst : list (string * nat)) :
  forall (s : App) (final : string),
    isLoading s = false -> page (pagination s) = 1 ->
    rapid burst -> changing (searchText s) (map fst burst ++ [final]) ->
    run s (typing burst ++ [SearchChange final])
    = (mkApp (students s) final false (pagination s) (debouncedSearchText s)
         (Some (delay, final)), [])
    /\ forall es rest,
         typing burst ++ [SearchChange final] = es ++ rest ->
         snd (run s es) = []
         /\ debouncedSearchText (fst (run s es)) = debouncedSearchText s.
Proof.
  induction burst as [|[t g] burst IH]; intros s final Hidle Hpage Hrapid Hch.
  - cbn [typing app map] in *. destruct Hch as [Hfinal _].
    cbn [run step]. rewrite (type_on_first_page s final Hidle Hpage Hfinal).
    split; [reflexivity|].
    intros es rest Hes. destruct es as [|e es].
    + auto.
    + cbn [app] in Hes. injection Hes as <- Hes.
      destruct es; [|destruct es; discriminate Hes].
      cbn [run step].
      rewrite (type_on_first_page s final Hidle Hpage Hfinal). auto.
  - cbn [typing app map] in *. destruct Hch as [Ht Hch].
    inversion Hrapid as [|? ? Hg Hrapid']; subst. cbn [snd] in Hg.
    pose proof (type_on_first_page s t Hidle Hpage Ht) as Htype.
    pose proof (elapse_short
                  (mkApp (students s) t false (pagination s)
                     (debouncedSearchText s) (Some (delay, t)))
                  delay g t eq_refl Hg) as Hwait.
    cbn [students searchText isLoading pagination debouncedSearchText] in Hwait.
    destruct (IH (mkApp (students s) t false (pagination s)
                    (debouncedSearchText s) (Some ((delay - g)%nat, t)))
                final eq_refl Hpage Hrapid' Hch) as [Hrun Hquiet].
    cbn [students searchText isLoading pagination debouncedSearchText]
      in Hrun, Hquiet.
    split.
    + cbn [run step]. rewrite Htype. cbn [run step]. rewrite Hwait.
      rewrite Hrun. reflexivity.
    + intros es rest Hes. destruct es as [|e es]; [auto|].
      cbn [app] in Hes. injection Hes as <- Hes.
      cbn [run step]. rewrite Htype.
      destruct es as [|e es]; [auto|].
      cbn [app] in Hes. injection Hes as <- Hes.
      cbn [run step]. rewrite Hwait.
      destruct (Hquiet es rest Hes) as [Hsent Hdeb].
      destruct (run _ es) as [s3 r3]. cbn [fst snd] in *.
      subst r3. auto.
Qed.

(** A change of the raw text to a value that the debounced text does not
    have asks for page 1 at once. *)
Lemma text_change_resets_page (s : App) (v : string) :
  v <> searchText s -> v <> debouncedSearchText s ->
  page (pagination (fst (handleSearchChange s v))) = 1.
Proof.
  intros Hraw Hdeb. unfold handleSearchChange. effects.
  replace (searchText s =? v)%string with false
    by (symmetry; apply String.eqb_neq; congruence).
  replace (debouncedSearchText s =? v)%string with false
    by (symmetry; apply String.eqb_neq; congruence).
  settled.
Qed.

(** C8, counterexample.  On page 2 of 3 and idle, going to page 2 is not
    rejected by the guard, and yet no request is sent: the page did not
    change, so the effect that fetches does not run. *)
Lemma same_page_sends_nothing :
  1 <= 2 <= totalPages (pagination Sample.on_page_two)
  /\ isLoading Sample.on_page_two = false
  /\ page (pagination (fst (handlePageChange Sample.on_page_two 2))) = 2
  /\ snd (handlePageChange Sample.on_page_two 2) = [].
Proof.
  split; [split; vm_compute; discriminate|].
  repeat split; vm_compute; reflexivity.
Qed.

(** C8, amended.  [handlePageChange n] does nothing (no request, state
    unchanged) when [n < 1], when [n > totalPages] or while a request is in
    flight; otherwise the page becomes [n], and when [n] is not the page
    already shown the coordinator turns busy and sends exactly one read for
    page [n], with the debounced text and the limit as they are; when [n]
    is the page shown nothing is sent. *)
Theorem page_navigation (s : App) (n : Z) :
  (n < 1 \/ totalPages (pagination s) < n \/ isLoading s = true ->
   handlePageChange s n = (s, []))
  /\ (n <= 0 \/ n = totalPages (pagination s) + 1 ->
      handlePageChange s n = (s, []))
  /\ (1 <= n <= totalPages (pagination s) -> isLoading s = false ->
      n = page (pagination s) ->
      handlePageChange s n = (s, []))
  /\ (1 <= n <= totalPages (pagination s) -> isLoading s = false ->
      n <> page (pagination s) ->
      handlePageChange s n
      = (mkApp (students s) (searchText s) true (set_page n (pagination s))
           (debouncedSearchText s) (timeout s),
         [fetchStudents
            (mkApp (students s) (searchText s) false
               (set_page n (pagination s)) (debouncedSearchText s)
               (timeout s))])).
Proof.
  assert (Hopen : 1 <= n <= totalPages (pagination s) -> isLoading s = false ->
                  (n <? 1) || (n >? totalPages (pagination s)) || isLoading s
                  = false).
  { intros Hn ->. rewrite Z.gtb_ltb.
    destruct (Z.ltb_spec n 1); [lia|].
    destruct (Z.ltb_spec (totalPages (pagination s)) n); [lia|]. reflexivity. }
  assert (Hshut : n < 1 \/ totalPages (pagination s) < n
                  \/ isLoading s = true ->
                  handlePageChange s n = (s, [])).
  { intros H. unfold handlePageChange.
    replace ((n <? 1) || (n >? totalPages (pagination s)) || isLoading s)
      with true; [reflexivity|].
    symmetry. rewrite Z.gtb_ltb. destruct H as [H | [H | H]].
    - apply Z.ltb_lt in H. now rewrite H.
    - apply Z.ltb_lt in H. rewrite H. now rewrite orb_true_r.
    - rewrite H. now rewrite orb_true_r. }
  split; [exact Hshut|]. split; [|split].
  - intros [H | H]; apply Hshut; [left | right; left]; lia.
  - intros Hn Hidle Hsame. unfold handlePageChange.
    rewrite (Hopen Hn Hidle).
    rewrite (set_page_same _ n (eq_sym Hsame)).
    replace (mkApp (students s) (searchText s) (isLoading s) (pagination s)
               (debouncedSearchText s) (timeout s)) with s by now destruct s.
    apply render_changes_nothing.
  - intros Hn Hidle Hother. unfold handlePageChange.
    rewrite (Hopen Hn Hidle). now apply render_page.
Qed.

Lemma page_navigation_witness :
  handlePageChange Sample.on_page_two 4 = (Sample.on_page_two, [])
  /\ handlePageChange Sample.on_page_two 0 = (Sample.on_page_two, [])
  /\ handlePageChange Sample.on_page_two (-1) = (Sample.on_page_two, [])
  /\ handlePageChange Sample.on_page_two 2 = (Sample.on_page_two, [])
  /\ snd (handlePageChange Sample.on_page_two 3) = [GetSearch "ann" 3 5].
Proof.
  split; [|split; [|split; [|split]]].
  - apply (proj1 (page_navigation Sample.on_page_two 4)). right. left.
    vm_compute. reflexivity.
  - apply (proj1 (proj2 (page_navigation Sample.on_page_two 0))). left. lia.
  - apply (proj1 (proj2 (page_navigation Sample.on_page_two (-1)))). left.
    lia.
  - apply (proj1 (proj2 (proj2 (page_navigation Sample.on_page_two 2))));
      [split; vm_compute; discriminate | | ]; vm_compute; reflexivity.
  - rewrite (proj2 (proj2 (proj2 (page_navigation Sample.on_page_two 3))));
      [vm_compute; reflexivity | split; vm_compute; discriminate
      | vm_compute; reflexivity | vm_compute; discriminate].
Defined.

(** C9, counterexample.  On page 2 with the text "ann" settled, the text is
    changed once, to "anne", and 500 ms pass.  One request is sent, at the
    change of the text, and it carries the old text "ann"; the final text is
    not asked for, although the debounced text has become "anne".  When the
    answer to that request arrives within the 500 ms, two search requests
    are sent, the first with the old text. *)
Lemma typing_on_later_page :
  snd (run Sample.on_page_two [SearchChange "anne"; Elapse 500])
  = [GetSearch "ann" 1 5]
  /\ debouncedSearchText
       (fst (run Sample.on_page_two [SearchChange "anne"; Elapse 500]))
     = "anne"%string
  /\ snd (run Sample.on_page_two
            [SearchChange "anne"; Fulfilled [] (Sample.page_of 1 3);
             Elapse 500])
     = [GetSearch "ann" 1 5; GetSearch "anne" 1 5].
Proof. repeat split; vm_compute; reflexivity. Qed.

(** C9, amended.  For a coordinator that is idle and on page 1, and a burst
    of changes of the search text, each less than 500 ms after the one
    before: while the burst lasts no request is sent and the debounced text
    keeps its value; once 500 ms pass with no further change the debounced
    text is the final text, the page is still 1, and exactly one read has
    been sent when the final text differs from the earlier debounced text
    (none when it is equal): a search that carries the final text, trimmed
    and URL-escaped, or a list read when the final text is blank.  A change
    of the text to a value other than the debounced text asks for page 1 at
    once, in every state. *)
Theorem debounce_sends_final_text (s : App) (burst : list (string * nat))
  (final : string) (quiet : nat) :
  isLoading s = false -> page (pagination s) = 1 ->
  rapid burst -> changing (searchText s) (map fst burst ++ [final]) ->
  (delay <= quiet)%nat ->
  let during := typing burst ++ [SearchChange final] in
  let after := run s (during ++ [Elapse quiet]) in
  (forall es rest, during = es ++ rest ->
     snd (run s es) = []
     /\ debouncedSearchText (fst (run s es)) = debouncedSearchText s)
  /\ debouncedSearchText (fst after) = final
  /\ page (pagination (fst after)) = 1
  /\ snd after
     = (if String.eqb final (debouncedSearchText s) then []
        else if truthy (trim final)
             then [GetSearch (encodeURIComponent (trim final)) 1
                     (limit (pagination s))]
             else [GetStudents 1 (limit (pagination s))])
  /\ (forall s' v, v <> searchText s' -> v <> debouncedSearchText s' ->
        page (pagination (fst (handleSearchChange s' v))) = 1).
Proof.
  intros Hidle Hpage Hrapid Hch Hquiet during after.
  destruct (typing_is_quiet burst s final Hidle Hpage Hrapid Hch)
    as [Hrun Hduring].
  split; [exact Hduring|].
  assert (Hafter :
    after
    = if String.eqb final (debouncedSearchText s) then
        (mkApp (students s) final false (pagination s) final None, [])
      else
        (mkApp (students s) final true (pagination s) final None,
         [fetchStudents
            (mkApp (students s) final false (pagination s) final None)])).
  { subst after during. rewrite run_app, Hrun. cbn [fst snd run step app].
    rewrite (elapse_due
               (mkApp (students s) final false (pagination s)
                  (debouncedSearchText s) (Some (delay, final)))
               delay quiet eq_refl Hquiet eq_refl).
    cbn [students searchText isLoading pagination debouncedSearchText].
    destruct (String.eqb final (debouncedSearchText s)); reflexivity. }
  rewrite Hafter.
  destruct (String.eqb final (debouncedSearchText s)); cbn [fst snd].
  - repeat split; auto. intros s' v. apply text_change_resets_page.
  - repeat split; auto.
    + unfold fetchStudents.
      cbn [debouncedSearchText pagination]. rewrite Hpage.
      destruct (truthy (trim final)); reflexivity.
    + intros s' v. apply text_change_resets_page.
Qed.

Lemma debounce_sends_final_text_witness :
  let during := typing [("a"%string, 100%nat); ("an"%string, 120%nat)]
                ++ [SearchChange "ann"] in
  let after := run Sample.on_page_one (during ++ [Elapse 500]) in
  (forall es rest, during = es ++ rest ->
     snd (run Sample.on_page_one es) = []
     /\ debouncedSearchText (fst (run Sample.on_page_one es)) = ""%string)
  /\ debouncedSearchText (fst after) = "ann"%string
  /\ page (pagination (fst after)) = 1
  /\ snd after = [GetSearch "ann" 1 5]
  /\ (forall s' v, v <> searchText s' -> v <> debouncedSearchText s' ->
        page (pagination (fst (handleSearchChange s' v))) = 1).
Proof.
  apply (debounce_sends_final_text Sample.on_page_one
           [("a"%string, 100%nat); ("an"%string, 120%nat)] "ann" 500).
  - vm_compute. reflexivity.
  - vm_compute. reflexivity.
  - repeat constructor; vm_compute; lia.
  - vm_compute. repeat split; discriminate.
  - vm_compute. lia.
Defined.

(** A text of white space beyond ASCII is blank as well: after a no-break
    space is typed and the delay has passed, the one read that is sent is
    a list read. *)
Lemma no_break_space_sends_list :
  snd (run Sample.on_page_one [SearchChange Sample.nbsp; Elapse 560])
  = [GetStudents 1 5]
  /\ trim (Sample.nbsp ++ "ann" ++ Sample.nbsp) = "ann"%string.
Proof. split; vm_compute; reflexivity. Qed.

End ClientProps.

(* ================================================================= *)
(** ** The record by id, after a create, an update, a delete *)

Module ByIdProps.
Import Js Mongo Server Spec MongoFacts StoreStates Mutations StudentById.

Lemma findOne_by_id (coll : Collection) (oid : ObjectId) :
  match findOne coll (IdEq oid) with
  | Some d => In d (documents coll) /\ _id d = oid
  | None => ~ has_id coll oid
  end.
Proof.
  unfold findOne.
  destruct (List.find (matches (IdEq oid)) (documents coll)) as [d|] eqn:H.
  - apply find_some in H as [Hd Hm]. simpl in Hm.
    now apply N.eqb_eq in Hm.
  - intros (d & Hd & Hid). pose proof (find_none _ _ H d Hd) as Hn.
    simpl in Hn. apply N.eqb_neq in Hn. contradiction.
Qed.

Lemma find_skips (p : Document -> bool) (before after : list Document)
  (x : Document) :
  p x = false ->
  List.find p (before ++ x :: after) = List.find p (before ++ after).
Proof.
  intros Hx. induction before as [|d before IH]; simpl.
  - now rewrite Hx.
  - now rewrite IH.
Qed.

Lemma find_last (p : Document -> bool) (ds : list Document) (x : Document) :
  (forall d, In d ds -> p d = false) -> p x = true ->
  List.find p (ds ++ [x]) = Some x.
Proof.
  intros Hds Hx. induction ds as [|d ds IH]; simpl.
  - now rewrite Hx.
  - rewrite (Hds d (or_introl eq_refl)). apply IH. intros d' Hd'.
    apply Hds. now right.
Qed.

(** Looking a record up by id after [replace_fields]: the record found
    before, with the new fields when it is the one replaced. *)
Lemma find_replaced (o oid : ObjectId) (body : Student) (ds : list Document) :
  List.find (matches (IdEq o)) (replace_fields oid body ds)
  = option_map
      (fun d => if N.eqb (_id d) oid then mkDocument oid body else d)
      (List.find (matches (IdEq o)) ds).
Proof.
  induction ds as [|d ds IH]; simpl; [reflexivity|].
  destruct (N.eqb (_id d) oid) eqn:Hd; simpl.
  - apply N.eqb_eq in Hd. rewrite Hd.
    destruct (N.eqb oid o); [simpl; now rewrite Hd, N.eqb_refl | exact IH].
  - destruct (N.eqb (_id d) o); [simpl; now rewrite Hd | exact IH].
Qed.

Lemma get_missing (coll : Collection) (id : string) (oid : ObjectId) :
  new_ObjectId id = Ok oid -> ~ has_id coll oid ->
  get_students_id coll id = Throw (Text "Can't find this student.").
Proof.
  intros Hparse Hid. unfold get_students_id. rewrite Hparse. simpl.
  pose proof (findOne_by_id coll oid) as H.
  destruct (findOne coll (IdEq oid)) as [d|]; [|reflexivity].
  destruct H as [Hd Hd']. exfalso. apply Hid. now exists d.
Qed.

(** X1.  The record by id: an id that is not an ObjectId throws the
    message of the parser; the id of a record returns that record; an id
    that no record has throws "Can't find this student.", which the
    framework answers with status 500. *)
Theorem record_by_id (coll : Collection) (id : string) :
  (forall m, new_ObjectId id = Throw m -> get_students_id coll id = Throw m)
  /\ (forall oid, new_ObjectId id = Ok oid -> has_id coll oid ->
      exists d, In d (documents coll) /\ _id d = oid
                /\ get_students_id coll id = Ok (Json d))
  /\ (forall oid, new_ObjectId id = Ok oid -> ~ has_id coll oid ->
      get_students_id coll id = Throw (Text "Can't find this student.")
      /\ status_of (get_students_id coll id) = 500).
Proof.
  unfold get_students_id. split; [|split].
  - intros m ->. reflexivity.
  - intros oid -> Hid. simpl. pose proof (findOne_by_id coll oid) as H.
    destruct (findOne coll (IdEq oid)) as [d|]; [|contradiction].
    exists d. destruct H. auto.
  - intros oid Hparse Hid. fold (get_students_id coll id).
    now rewrite (get_missing coll id oid Hparse Hid).
Qed.

Lemma record_by_id_witness :
  get_students_id Sample.two_records "nonsense" = Throw (Native InvalidObjectId)
  /\ (exists d, In d (documents Sample.two_records) /\ _id d = 2%N
                /\ get_students_id Sample.two_records Sample.id2
                   = Ok (Json d))
  /\ get_students_id Sample.two_records Sample.id9
     = Throw (Text "Can't find this student.")
  /\ status_of (get_students_id Sample.two_records Sample.id9) = 500.
Proof.
  split; [|split].
  - apply (proj1 (record_by_id Sample.two_records "nonsense")). reflexivity.
  - apply (proj1 (proj2 (record_by_id Sample.two_records Sample.id2)) 2%N).
    + reflexivity.
    + eexists. split; [right; left; reflexivity | reflexivity].
  - apply (proj2 (proj2 (record_by_id Sample.two_records Sample.id9)) 9%N).
    + reflexivity.
    + intros (d & [<- | [<- | []]] & Hid); discriminate Hid.
Defined.

(** X2.  Round trip of a create: the record by the id that the create
    returned is the answer of the create, the fields as supplied with the
    new id. *)
Theorem created_record_is_found (coll : Collection) (body : Student)
  (id : string) :
  consistent coll -> ~ key_taken coll (student_id body) ->
  new_ObjectId id = Ok (next_id coll) ->
  get_students_id (fst (post_students coll body)) id
  = Ok (Json (mkDocument (next_id coll) body))
  /\ snd (post_students coll body)
     = get_students_id (fst (post_students coll body)) id.
Proof.
  intros Hc Hfree Hid.
  rewrite (post_created coll body (indexes_own coll Hc) Hfree).
  cbn [fst snd]. unfold get_students_id, findOne. rewrite Hid.
  cbn [bind documents]. rewrite find_last; [auto | | ].
  - intros d Hd. simpl. apply N.eqb_neq.
    apply (ids_issued coll Hc) in Hd. lia.
  - simpl. apply N.eqb_refl.
Qed.

Lemma created_record_is_found_witness :
  get_students_id (fst (post_students Sample.one_record Sample.bob)) Sample.id2
  = Ok (Json (mkDocument (next_id Sample.one_record) Sample.bob))
  /\ snd (post_students Sample.one_record Sample.bob)
     = get_students_id (fst (post_students Sample.one_record Sample.bob))
         Sample.id2.
Proof.
  apply (created_record_is_found Sample.one_record Sample.bob Sample.id2).
  - exact one_record_consistent.
  - intros (d & [<- | []] & Hk). discriminate Hk.
  - reflexivity.
Defined.

(** X3.  Round trip of an update: after an update that succeeds, the
    record by that id has the new fields and the same id, and the record by
    any other id is what it was. *)
Theorem updated_record_is_found (coll : Collection) (id : string)
  (oid : ObjectId) (body : Student) :
  consistent coll -> new_ObjectId id = Ok oid -> has_id coll oid ->
  ~ key_taken_by_other coll oid (student_id body) ->
  let coll' := fst (put_students_id coll id body) in
  get_students_id coll' id = Ok (Json (mkDocument oid body))
  /\ forall id' oid', new_ObjectId id' = Ok oid' -> oid' <> oid ->
       get_students_id coll' id' = get_students_id coll id'.
Proof.
  intros Hc Hparse Hid Hfree coll'.
  assert (Hdocs : documents coll' = replace_fields oid body (documents coll)).
  { subst coll'. unfold put_students_id. rewrite Hparse.
    rewrite (proj2 (findOne_other_none coll oid _) Hfree).
    now destruct (updateOne_by_id coll oid body Hc Hid Hfree) as [-> _]. }
  split.
  - unfold get_students_id, findOne. rewrite Hparse, Hdocs. cbn [bind].
    rewrite find_replaced. pose proof (findOne_by_id coll oid) as H.
    unfold findOne in H.
    destruct (List.find (matches (IdEq oid)) (documents coll)) as [d|];
      [|contradiction].
    destruct H as [_ Hd]. simpl. now rewrite Hd, N.eqb_refl.
  - intros id' oid' Hparse' Hne.
    unfold get_students_id, findOne. rewrite Hparse', Hdocs. cbn [bind].
    rewrite find_replaced. pose proof (findOne_by_id coll oid') as H.
    unfold findOne in H.
    destruct (List.find (matches (IdEq oid')) (documents coll)) as [d|];
      [|reflexivity].
    destruct H as [_ Hd]. simpl.
    replace (N.eqb (_id d) oid) with false; [reflexivity|].
    symmetry. apply N.eqb_neq. congruence.
Qed.

Lemma updated_record_is_found_witness :
  let coll' := fst (put_students_id Sample.two_records Sample.id2
                      (mkStudent "6702" "Robert" "Ray" "Rob")) in
  get_students_id coll' Sample.id2
  = Ok (Json (mkDocument 2%N (mkStudent "6702" "Robert" "Ray" "Rob")))
  /\ forall id' oid', new_ObjectId id' = Ok oid' -> oid' <> 2%N ->
       get_students_id coll' id' = get_students_id Sample.two_records id'.
Proof.
  apply (updated_record_is_found Sample.two_records Sample.id2 2%N).
  - exact two_records_consistent.
  - reflexivity.
  - eexists. split; [right; left; reflexivity | reflexivity].
  - intros (d & [<- | [<- | []]] & Hk & Hne);
      [discriminate Hk | now apply Hne].
Defined.

(** X4.  After the delete of a record, the record by its id is not found,
    a second delete of the id throws and changes nothing, the record by any
    other id is what it was, and the natural key of the deleted record is
    free: a create with its fields persists them under a new id. *)
Theorem deleted_record_is_gone (coll : Collection) (id : string)
  (d : Document) :
  consistent coll -> new_ObjectId id = Ok (_id d) -> In d (documents coll) ->
  let coll' := fst (delete_students_id coll id) in
  get_students_id coll' id = Throw (Text "Can't find this student.")
  /\ delete_students_id coll' id
     = (coll', Throw (Text "Can't find this student to delete."))
  /\ (forall id' oid', new_ObjectId id' = Ok oid' -> oid' <> _id d ->
        get_students_id coll' id' = get_students_id coll id')
  /\ post_students coll' (fields d)
     = (mkCollection (documents coll' ++ [mkDocument (next_id coll) (fields d)])
          (indexes coll) (N.succ (next_id coll)),
        Ok (Json (mkDocument (next_id coll) (fields d)))).
Proof.
  intros Hc Hparse Hd coll'.
  assert (Hid : has_id coll (_id d)) by now exists d.
  destruct (deleteOne_by_id coll (_id d) Hc Hid)
    as (b & x & a & Hdocs & Hx & Hothers & Hdel & Hc').
  assert (Hcoll' : coll' = mkCollection (b ++ a) (indexes coll) (next_id coll)).
  { subst coll'. unfold delete_students_id. now rewrite Hparse, Hdel. }
  assert (Hgone : ~ has_id coll' (_id d)).
  { rewrite Hcoll'. intros (d' & Hd' & Hid'). now apply (Hothers d'). }
  assert (Hdx : d = x).
  { apply (NoDup_map_eq _id (documents coll)); auto.
    - apply (ids_distinct coll Hc).
    - rewrite Hdocs. apply in_or_app. right. now left. }
  split; [|split; [|split]].
  - apply (get_missing coll' id (_id d) Hparse Hgone).
  - unfold delete_students_id. rewrite Hparse.
    now rewrite (deleteOne_missing coll' (_id d) Hgone).
  - intros id' oid' Hparse' Hne. unfold get_students_id, findOne.
    rewrite Hparse', Hcoll', Hdocs. cbn [bind documents].
    rewrite find_skips; [reflexivity|]. simpl. apply N.eqb_neq. congruence.
  - rewrite Hcoll' in *. rewrite post_created.
    + reflexivity.
    + apply (indexes_own _ Hc').
    + apply key_free_not_in. cbn [documents].
      pose proof (keys_distinct coll Hc) as Hk.
      apply keys_unique_NoDup in Hk. rewrite Hdocs, keys_app in Hk.
      apply NoDup_remove_2 in Hk. rewrite keys_app. now rewrite Hdx.
Qed.

Lemma deleted_record_is_gone_witness :
  let coll' := fst (delete_students_id Sample.two_records Sample.id1) in
  get_students_id coll' Sample.id1 = Throw (Text "Can't find this student.")
  /\ delete_students_id coll' Sample.id1
     = (coll', Throw (Text "Can't find this student to delete."))
  /\ (forall id' oid', new_ObjectId id' = Ok oid' -> oid' <> 1%N ->
        get_students_id coll' id' = get_students_id Sample.two_records id')
  /\ post_students coll' Sample.anne
     = (mkCollection (documents coll' ++ [mkDocument 3%N Sample.anne])
          (indexes Sample.two_records) 4%N,
        Ok (Json (mkDocument 3%N Sample.anne))).
Proof.
  apply (deleted_record_is_gone Sample.two_records Sample.id1
           (mkDocument 1%N Sample.anne)).
  - exact two_records_consistent.
  - reflexivity.
  - left. reflexivity.
Defined.

End ByIdProps.

(* ================================================================= *)
(** ** Reading the store page by page *)

Module ListingProps.
Import Js Mongo Server Spec JsFacts MongoFacts StoreStates Mutations.
Import QueryProps StudentById.

Lemma ceil_div_exact (k b : Z) : 0 < b -> ceil_div (k * b) b = k.
Proof.
  intros Hb. unfold ceil_div.
  replace (- (k * b)) with ((- k) * b) by ring.
  rewrite Z.div_mul by lia. ring.
Qed.

Lemma skipn_snoc {A} (k : nat) (l : list A) (x : A) :
  (k <= List.length l)%nat -> skipn k (l ++ [x]) = skipn k l ++ [x].
Proof.
  intros H. rewrite skipn_app.
  replace (k - List.length l)%nat with 0%nat by lia. reflexivity.
Qed.

(** X5.  Round trip of a create through the list: for every positive
    limit, the last page of the list after the create ends with the record
    that the create returned. *)
Theorem created_record_is_listed_last (coll : Collection) (body : Student)
  (lim : Z) :
  consistent coll -> ~ key_taken coll (student_id body) -> 0 < lim ->
  let coll' := fst (post_students coll body) in
  let last_page := ceil_div (Z.of_nat (List.length (documents coll'))) lim in
  exists earlier,
    shown (get_students coll' (mkQuery (Int last_page) (Int lim)))
    = earlier ++ [mkDocument (next_id coll) body]
    /\ snd (post_students coll body)
       = Ok (Json (mkDocument (next_id coll) body)).
Proof.
  intros Hc Hfree Hlim coll' last_page. subst coll' last_page.
  rewrite (post_created coll body (indexes_own coll Hc) Hfree).
  cbn [fst snd documents].
  set (d := mkDocument (next_id coll) body).
  remember (Z.of_nat (List.length (documents coll ++ [d]))) as count
    eqn:Hcount.
  rewrite length_app in Hcount. cbn [List.length] in Hcount.
  rewrite Nat2Z.inj_add in Hcount. cbn [Z.of_nat Pos.of_succ_nat] in Hcount.
  pose proof (ceil_div_bounds count lim Hlim) as [Hlow Hhigh].
  assert (Hpg : 1 <= ceil_div count lim) by nia.
  rewrite (get_students_valid _ _ _ Hpg Hlim). cbn [shown students documents].
  remember (Z.to_nat ((ceil_div count lim - 1) * lim)) as k eqn:Ek.
  assert (Hskip : 0 <= (ceil_div count lim - 1) * lim) by nia.
  assert (Hk : (k <= List.length (documents coll))%nat).
  { apply Nat2Z.inj_le. rewrite Ek, Z2Nat.id by exact Hskip. lia. }
  rewrite (skipn_snoc k _ d Hk).
  exists (skipn k (documents coll)). split; [|reflexivity].
  apply firstn_all2. rewrite length_app, length_skipn. simpl.
  apply Nat2Z.inj_le. rewrite Nat2Z.inj_add, Nat2Z.inj_sub by exact Hk.
  rewrite Ek, !Z2Nat.id by lia. simpl. lia.
Qed.

Lemma created_record_is_listed_last_witness :
  let coll' := fst (post_students Sample.one_record Sample.bob) in
  let last_page := ceil_div (Z.of_nat (List.length (documents coll'))) 1 in
  exists earlier,
    shown (get_students coll' (mkQuery (Int last_page) (Int 1)))
    = earlier ++ [mkDocument (next_id Sample.one_record) Sample.bob]
    /\ snd (post_students Sample.one_record Sample.bob)
       = Ok (Json (mkDocument (next_id Sample.one_record) Sample.bob)).
Proof.
  apply (created_record_is_listed_last Sample.one_record Sample.bob 1).
  - exact one_record_consistent.
  - intros (d & [<- | []] & Hk). discriminate Hk.
  - lia.
Defined.

Lemma flat_map_agree {A B} (f g : A -> list B) (l : list A) :
  (forall a, In a l -> f a = g a) -> flat_map f l = flat_map g l.
Proof.
  induction l as [|a l IH]; intros H; simpl; [reflexivity|].
  rewrite (H a (or_introl eq_refl)), IH; [reflexivity|].
  intros b Hb. apply H. now right.
Qed.

(** Cutting a list into [k] pieces of [n] and joining them gives the list
    back, when [k] pieces are enough. *)
Lemma pieces_cover {A} (n : nat) (k : nat) :
  forall l : list A,
    (0 < n)%nat -> (List.length l <= k * n)%nat ->
    flat_map (fun p => firstn n (skipn ((p - 1) * n) l)) (seq 1 k) = l.
Proof.
  induction k as [|k IH]; intros l Hn Hlen.
  - simpl in *. destruct l; [reflexivity | simpl in Hlen; lia].
  - cbn [seq flat_map Nat.sub Nat.mul skipn].
    rewrite <- seq_shift, flat_map_concat_map, map_map.
    rewrite <- flat_map_concat_map.
    rewrite (flat_map_agree _
               (fun p => firstn n (skipn ((p - 1) * n) (skipn n l)))).
    + rewrite IH; [apply firstn_skipn | exact Hn |].
      rewrite length_skipn. cbn [Nat.mul] in Hlen. lia.
    + intros p Hp. apply in_seq in Hp. rewrite skipn_skipn. f_equal. f_equal.
      destruct p as [|p]; [lia|]. cbn [Nat.sub Nat.mul].
      rewrite !Nat.sub_0_r. lia.
Qed.

(** X6.  For every positive limit, the pages 1 to [totalPages] of the list,
    one after the other, are the records of the store in their order: no
    record is left out and none is shown twice. *)
Theorem pages_cover_the_store (coll : Collection) (lim : Z) :
  0 < lim -> all_pages coll lim = documents coll.
Proof.
  intros Hlim. unfold all_pages, countDocuments.
  rewrite filter_everything.
  remember (Z.of_nat (List.length (documents coll))) as count eqn:Hcount.
  pose proof (ceil_div_bounds count lim Hlim) as [_ Hhigh].
  pose proof (ceil_div_nonneg count lim ltac:(lia) Hlim) as Hpos.
  rewrite (flat_map_agree _
             (fun p => firstn (Z.to_nat lim)
                         (skipn ((p - 1) * Z.to_nat lim) (documents coll)))).
  - apply pieces_cover; [lia|]. apply Nat2Z.inj_le.
    rewrite Nat2Z.inj_mul, !Z2Nat.id by lia. lia.
  - intros p Hp. apply in_seq in Hp.
    rewrite get_students_valid by lia. cbn [shown students].
    f_equal. f_equal. nia.
Qed.

Lemma pages_cover_the_store_witness :
  all_pages Sample.two_records 1 = documents Sample.two_records.
Proof. apply (pages_cover_the_store Sample.two_records 1). lia. Defined.

(** X7.  A page past the last one is not an error: the list answers with no
    records, the true total and page count, and the page number as asked. *)
Theorem page_past_the_end (coll : Collection) (pg lim : Z) :
  1 <= pg -> 0 < lim ->
  Z.of_nat (List.length (documents coll)) <= (pg - 1) * lim ->
  let count := Z.of_nat (List.length (documents coll)) in
  get_students coll (mkQuery (Int pg) (Int lim))
  = Ok (Json (mkPage [] (mkPagination count pg lim (ceil_div count lim))))
  /\ ceil_div count lim < pg.
Proof.
  intros Hpg Hlim Hpast count. split.
  - rewrite (get_students_valid coll pg lim Hpg Hlim).
    rewrite skipn_all2 by lia. now rewrite firstn_nil.
  - pose proof (ceil_div_bounds count lim Hlim). subst count. nia.
Qed.

Lemma page_past_the_end_witness :
  let count := Z.of_nat (List.length (documents Sample.two_records)) in
  get_students Sample.two_records (mkQuery (Int 3) (Int 1))
  = Ok (Json (mkPage [] (mkPagination count 3 1 (ceil_div count 1))))
  /\ ceil_div count 1 < 3.
Proof.
  apply (page_past_the_end Sample.two_records 3 1); vm_compute;
    try reflexivity; discriminate.
Defined.

(** X8.  A delete can empty the page that is shown: when the last page
    holds a single record, after the delete of any record the list for that
    page number answers with no records and one page fewer. *)
Theorem delete_empties_last_page (coll : Collection) (id : string)
  (oid : ObjectId) (pg lim : Z) :
  consistent coll -> new_ObjectId id = Ok oid -> has_id coll oid ->
  1 <= pg -> 0 < lim ->
  Z.of_nat (List.length (documents coll)) = (pg - 1) * lim + 1 ->
  get_students (fst (delete_students_id coll id)) (mkQuery (Int pg) (Int lim))
  = Ok (Json (mkPage [] (mkPagination ((pg - 1) * lim) pg lim (pg - 1)))).
Proof.
  intros Hc Hparse Hid Hpg Hlim Hcount.
  destruct (deleteOne_by_id coll oid Hc Hid)
    as (b & x & a & Hdocs & _ & _ & Hdel & _).
  unfold delete_students_id. rewrite Hparse, Hdel. cbn [fst Z.eqb].
  rewrite Hdocs, length_app in Hcount. cbn [List.length] in Hcount.
  assert (Hleft : Z.of_nat (List.length (b ++ a)) = (pg - 1) * lim).
  { rewrite length_app. lia. }
  rewrite (get_students_valid _ pg lim Hpg Hlim). cbn [documents].
  rewrite Hleft, (ceil_div_exact (pg - 1) lim Hlim).
  rewrite skipn_all2 by lia. now rewrite firstn_nil.
Qed.

Lemma delete_empties_last_page_witness :
  get_students (fst (delete_students_id Sample.two_records Sample.id1))
    (mkQuery (Int 2) (Int 1))
  = Ok (Json (mkPage [] (mkPagination ((2 - 1) * 1) 2 1 (2 - 1)))).
Proof.
  apply (delete_empties_last_page Sample.two_records Sample.id1 1%N 2 1).
  - exact two_records_consistent.
  - reflexivity.
  - eexists. split; [left; reflexivity | reflexivity].
  - lia.
  - lia.
  - reflexivity.
Defined.

(** X9.  A page or a limit that is missing, not a number or 0 is replaced
    by page 1 and limit 10: the list then shows the first ten records, and
    the search answers as for page 1 and limit 10. *)
Theorem paging_defaults (coll : Collection) (p l : JsNumber) :
  p = NaN \/ p = Int 0 -> l = NaN \/ l = Int 0 ->
  let count := Z.of_nat (List.length (documents coll)) in
  get_students coll (mkQuery p l)
  = Ok (Json (mkPage (firstn 10 (documents coll))
                (mkPagination count 1 10 (ceil_div count 10))))
  /\ forall plan text,
       get_students_search_text plan coll text (mkQuery p l)
       = get_students_search_text plan coll text (mkQuery (Int 1) (Int 10)).
Proof.
  intros Hp Hl count. split.
  - transitivity (get_students coll (mkQuery (Int 1) (Int 10))).
    + destruct Hp as [-> | ->], Hl as [-> | ->]; reflexivity.
    + now rewrite get_students_valid by lia.
  - intros plan text.
    destruct Hp as [-> | ->], Hl as [-> | ->]; reflexivity.
Qed.

Lemma paging_defaults_witness :
  let count := Z.of_nat (List.length (documents Sample.two_records)) in
  get_students Sample.two_records (mkQuery (Int 0) NaN)
  = Ok (Json (mkPage (firstn 10 (documents Sample.two_records))
                (mkPagination count 1 10 (ceil_div count 10))))
  /\ forall plan text,
       get_students_search_text plan Sample.two_records text
         (mkQuery (Int 0) NaN)
       = get_students_search_text plan Sample.two_records text
           (mkQuery (Int 1) (Int 10)).
Proof.
  apply (paging_defaults Sample.two_records (Int 0) NaN); auto.
Defined.

(** X10.  A negative page number makes the skip negative, which the store
    refuses; the list and the search catch the exception and answer 400
    with its message. *)
Theorem negative_page_is_refused (coll : Collection) (pg lim : Z) :
  pg < 0 -> 0 < lim ->
  get_students coll (mkQuery (Int pg) (Int lim))
  = Ok (Response (Native NegativeSkip) 400)
  /\ forall plan text q f,
       decodeURIComponent text = Ok q -> searchQuery q = Some f ->
       get_students_search_text plan coll text (mkQuery (Int pg) (Int lim))
       = Some (Ok (Response (Native NegativeSkip) 400)).
Proof.
  intros Hpg Hlim.
  assert (Hskip : ((pg - 1) * lim <? 0) = true) by (apply Z.ltb_lt; nia).
  split.
  - unfold get_students. cbn [query_page query_limit].
    rewrite !or_else_nonzero by lia. unfold toArray. simpl.
    now rewrite Hskip.
  - intros plan text q f Ht Hq. unfold get_students_search_text.
    cbn [query_page query_limit]. rewrite !or_else_nonzero by lia.
    rewrite Ht, Hq. unfold toArray. simpl. now rewrite Hskip.
Qed.

Lemma negative_page_is_refused_witness :
  get_students Sample.two_records (mkQuery (Int (-1)) (Int 5))
  = Ok (Response (Native NegativeSkip) 400)
  /\ forall plan text q f,
       decodeURIComponent text = Ok q -> searchQuery q = Some f ->
       get_students_search_text plan Sample.two_records text
         (mkQuery (Int (-1)) (Int 5))
       = Some (Ok (Response (Native NegativeSkip) 400)).
Proof. apply (negative_page_is_refused Sample.two_records (-1) 5); lia. Defined.



(** With the plan [Sample.newest_first] the first page of that search shows
    the record created last, with the natural plan the one created first:
    the page depends on the plan, the total does not. *)
Lemma search_page_by_plan :
  get_students_search_text Sample.newest_first Sample.two_records "67"
    (mkQuery (Int 1) (Int 1))
  = Some (Ok (Json (mkPage [mkDocument 2%N Sample.bob]
                      (mkPagination 2 1 1 2))))
  /\ get_students_search_text natural Sample.two_records "67"
       (mkQuery (Int 1) (Int 1))
     = Some (Ok (Json (mkPage [mkDocument 1%N Sample.anne]
                         (mkPagination 2 1 1 2)))).
Proof. split; reflexivity. Qed.

End ListingProps.

(* ================================================================= *)
(** ** Through every sequence of requests *)

Module RunProps.
Import Js Mongo Server Spec MongoFacts StoreStates Mutations StudentById.

Lemma In_replace_fields (oid : ObjectId) (body : Student) (ds : list Document)
  (d : Document) :
  In d (replace_fields oid body ds) ->
  exists d0, In d0 ds /\ _id d0 = _id d.
Proof.
  unfold replace_fields. intros H. apply in_map_iff in H as (d0 & <- & Hd0).
  exists d0. split; [exact Hd0|].
  destruct (N.eqb (_id d0) oid) eqn:E; [|reflexivity].
  apply N.eqb_eq in E. now rewrite E.
Qed.

(** What one request does to the store: its records after the request. *)
Lemma serve_cases (coll : Collection) (c : Call) :
  consistent coll ->
  documents (serve coll c) = documents coll /\ next_id (serve coll c) = next_id coll
  \/ (exists body,
        documents (serve coll c)
        = documents coll ++ [mkDocument (next_id coll) body]
        /\ next_id (serve coll c) = N.succ (next_id coll))
  \/ (exists oid body,
        target c = Some oid
        /\ documents (serve coll c) = replace_fields oid body (documents coll)
        /\ next_id (serve coll c) = next_id coll)
  \/ (exists oid before x after,
        target c = Some oid /\ _id x = oid
        /\ documents coll = before ++ x :: after
        /\ documents (serve coll c) = before ++ after
        /\ next_id (serve coll c) = next_id coll).
Proof.
  intros Hc. destruct c as [body | id body | id]; simpl.
  - unfold post_students.
    destruct (findOne coll (FieldEq f_student_id (student_id body))) eqn:Hf;
      [now left|].
    apply findOne_key_none in Hf.
    rewrite (insertOne_ok coll body (indexes_own coll Hc) Hf).
    right. left. exists body. auto.
  - unfold put_students_id.
    destruct (new_ObjectId id) as [oid|]; [|now left].
    destruct (findOne coll (And (FieldEq f_student_id (student_id body))
                              (IdNe oid))) eqn:Hf; [now left|].
    apply findOne_other_none in Hf.
    destruct (has_id_dec coll oid) as [Hid | Hid].
    + destruct (updateOne_by_id coll oid body Hc Hid Hf) as [-> _].
      right. right. left. exists oid, body. auto.
    + rewrite (updateOne_missing coll oid body Hid). now left.
  - unfold delete_students_id.
    destruct (new_ObjectId id) as [oid|]; [|now left].
    destruct (has_id_dec coll oid) as [Hid | Hid].
    + destruct (deleteOne_by_id coll oid Hc Hid)
        as (b & x & a & Hdocs & Hx & _ & -> & _).
      right. right. right. exists oid, b, x, a. auto.
    + rewrite (deleteOne_missing coll oid Hid). now left.
Qed.

(** After a request, every record has an id that a record had before, or
    the id that was next. *)
Lemma serve_ids (coll : Collection) (c : Call) :
  consistent coll ->
  (next_id coll <= next_id (serve coll c))%N
  /\ forall d, In d (documents (serve coll c)) ->
       has_id coll (_id d) \/ _id d = next_id coll.
Proof.
  intros Hc.
  destruct (serve_cases coll c Hc)
    as [[Hd Hn] | [(body & Hd & Hn) | [(oid & body & _ & Hd & Hn)
       | (oid & b & x & a & _ & _ & Hdocs & Hd & Hn)]]];
    rewrite Hd, Hn; (split; [lia|]); intros d Hin.
  - left. now exists d.
  - apply in_app_or in Hin as [Hin | [<- | []]];
      [left; now exists d | now right].
  - left. apply In_replace_fields in Hin as (d0 & Hd0 & Hid).
    now exists d0.
  - left. exists d. split; [|reflexivity]. rewrite Hdocs.
    apply in_app_or in Hin as [Hin | Hin]; apply in_or_app;
      [now left | right; now right].
Qed.

(** X13.  A request touches no record but its target: a record whose id the
    request does not name is in the store after the request as it was
    before, whatever the request is and however it ends. *)
Theorem other_records_untouched (coll : Collection) (c : Call)
  (d : Document) :
  consistent coll -> In d (documents coll) -> target c <> Some (_id d) ->
  In d (documents (serve coll c)).
Proof.
  intros Hc Hd Hother.
  destruct (serve_cases coll c Hc)
    as [[Hdocs _] | [(body & Hdocs & _) | [(oid & body & Ht & Hdocs & _)
       | (oid & b & x & a & Ht & Hx & Hsplit & Hdocs & _)]]];
    rewrite Hdocs.
  - exact Hd.
  - apply in_or_app. now left.
  - unfold replace_fields. apply in_map_iff. exists d. split; [|exact Hd].
    destruct (N.eqb (_id d) oid) eqn:E; [|reflexivity].
    apply N.eqb_eq in E. exfalso. apply Hother. now rewrite Ht, E.
  - rewrite Hsplit in Hd. apply in_app_or in Hd as [Hd | [<- | Hd]].
    + apply in_or_app. now left.
    + exfalso. apply Hother. now rewrite Ht, Hx.
    + apply in_or_app. now right.
Qed.

Lemma other_records_untouched_witness :
  In (mkDocument 1%N Sample.anne)
    (documents (serve Sample.two_records
                  (Put Sample.id2 (mkStudent "6702" "Robert" "Ray" "Rob")))).
Proof.
  apply (other_records_untouched Sample.two_records
           (Put Sample.id2 (mkStudent "6702" "Robert" "Ray" "Rob"))
           (mkDocument 1%N Sample.anne)).
  - exact two_records_consistent.
  - left. reflexivity.
  - vm_compute. discriminate.
Defined.

Lemma serve_indexes (coll : Collection) (c : Call) :
  consistent coll -> indexes (serve coll c) = indexes coll.
Proof.
  intros Hc. destruct c as [body | id body | id]; simpl.
  - unfold post_students.
    destruct (findOne coll (FieldEq f_student_id (student_id body))) eqn:Hf;
      [reflexivity|].
    apply findOne_key_none in Hf.
    now rewrite (insertOne_ok coll body (indexes_own coll Hc) Hf).
  - unfold put_students_id.
    destruct (new_ObjectId id) as [oid|]; [|reflexivity].
    destruct (findOne coll (And (FieldEq f_student_id (student_id body))
                              (IdNe oid))) eqn:Hf; [reflexivity|].
    apply findOne_other_none in Hf.
    destruct (has_id_dec coll oid) as [Hid | Hid].
    + now destruct (updateOne_by_id coll oid body Hc Hid Hf) as [-> _].
    + now rewrite (updateOne_missing coll oid body Hid).
  - unfold delete_students_id.
    destruct (new_ObjectId id) as [oid|]; [|reflexivity].
    destruct (has_id_dec coll oid) as [Hid | Hid].
    + now destruct (deleteOne_by_id coll oid Hc Hid)
        as (b & x & a & _ & _ & _ & -> & _).
    + now rewrite (deleteOne_missing coll oid Hid).
Qed.

(** X14.  The invariant of the data model: from a consistent store, after
    start-up and every sequence of create, update and delete requests, no
    two records share a natural key, no two share an id, every id is older
    than the next one, and the unique index on the natural key is in
    place. *)
Theorem store_stays_consistent (cs : list Call) (coll : Collection) :
  consistent coll ->
  let now := serve_all (connectToMongo coll) cs in
  NoDup (keys (documents now)) /\ NoDup (map _id (documents now))
  /\ (forall d, In d (documents now) -> (_id d < next_id now)%N)
  /\ key_index_built now.
Proof.
  intros Hc now.
  destruct (connectToMongo_consistent coll Hc) as (Hc0 & _ & _ & Hix0).
  assert (H : consistent now /\ key_index_built now).
  { subst now. unfold serve_all. revert Hc0 Hix0.
    generalize (connectToMongo coll). clear Hc.
    induction cs as [|c cs IH]; intros c0 Hc0 Hix0; simpl; [auto|].
    apply IH; [now apply serve_consistent|].
    unfold key_index_built. now rewrite serve_indexes. }
  destruct H as [[Hids Hissued Hkeys _] Hix].
  repeat split; auto. now apply keys_unique_NoDup.
Qed.

Lemma store_stays_consistent_witness :
  let now := serve_all (connectToMongo Sample.empty)
               [Post Sample.anne; Post Sample.anne; Post Sample.bob] in
  NoDup (keys (documents now)) /\ NoDup (map _id (documents now))
  /\ (forall d, In d (documents now) -> (_id d < next_id now)%N)
  /\ key_index_built now.
Proof.
  apply (store_stays_consistent
           [Post Sample.anne; Post Sample.anne; Post Sample.bob] Sample.empty).
  exact consistent_empty.
Defined.

Lemma createIndex_present (coll : Collection) (f : Field) (u : bool) :
  service_indexes coll -> In (mkIndex f u) (indexes coll) ->
  createIndex coll f u = Ok coll.
Proof.
  intros Hown Hin. unfold createIndex.
  destruct (index_on f (indexes coll)) as [ix|] eqn:Hix.
  - apply index_on_some in Hix as [Hix Hk].
    rewrite (Hown ix Hix), Hk. pose proof (Hown _ Hin) as Hu. simpl in Hu.
    now rewrite <- Hu, Bool.eqb_reflx.
  - unfold index_on in Hix. pose proof (find_none _ _ Hix _ Hin) as Hn.
    simpl in Hn. now destruct f.
Qed.

(** X15.  Start-up can be repeated: over a store where it has run, it
    changes nothing, so a restart adds no index and touches no record. *)
Theorem restart_changes_nothing (coll : Collection) :
  consistent coll ->
  connectToMongo (connectToMongo coll) = connectToMongo coll
  /\ documents (connectToMongo coll) = documents coll.
Proof.
  intros Hc. split; [|apply (connectToMongo_consistent coll Hc)].
  assert (Hall : consistent (connectToMongo coll)
                 /\ forall f, In (mkIndex f (field_eqb f f_student_id))
                                (indexes (connectToMongo coll))).
  { unfold connectToMongo, createIndexes.
    destruct (createIndex_own coll f_student_id Hc)
      as (c1 & E1 & Hc1 & _ & _ & Hi1 & _).
    destruct (createIndex_own c1 f_firstname Hc1)
      as (c2 & E2 & Hc2 & _ & _ & Hi2 & Hk2).
    destruct (createIndex_own c2 f_lastname Hc2)
      as (c3 & E3 & Hc3 & _ & _ & Hi3 & Hk3).
    destruct (createIndex_own c3 f_nickname Hc3)
      as (c4 & E4 & Hc4 & _ & _ & Hi4 & Hk4).
    simpl in E1, E2, E3, E4. rewrite E1, E2, E3, E4.
    split; [exact Hc4|]. intros []; auto. }
  destruct Hall as [Hc' Hall].
  set (c := connectToMongo coll) in *.
  unfold connectToMongo at 1, createIndexes.
  rewrite (createIndex_present c f_student_id true (indexes_own c Hc')
             (Hall f_student_id)).
  rewrite (createIndex_present c f_firstname false (indexes_own c Hc')
             (Hall f_firstname)).
  rewrite (createIndex_present c f_lastname false (indexes_own c Hc')
             (Hall f_lastname)).
  now rewrite (createIndex_present c f_nickname false (indexes_own c Hc')
                 (Hall f_nickname)).
Qed.

Lemma restart_changes_nothing_witness :
  connectToMongo (connectToMongo Sample.two_records)
  = connectToMongo Sample.two_records
  /\ documents (connectToMongo Sample.two_records)
     = documents Sample.two_records.
Proof.
  apply (restart_changes_nothing Sample.two_records).
  exact two_records_consistent.
Defined.

End RunProps.

(* ================================================================= *)
(** ** The fetch decision of the coordinator *)

Module SearchTextProps.
Import Js Client Spec Tactics JsFacts StudentById.

Lemma encode_nonempty (s : string) :
  truthy s = true -> truthy (encodeURIComponent s) = true.
Proof.
  destruct s as [|c s]; [discriminate|]. intros _. cbn [encodeURIComponent].
  now destruct (uri_unreserved c).
Qed.

(** No character of a text is empty. *)
Lemma characters_nonempty (s ch : string) :
  In ch (characters s) -> truthy ch = true.
Proof.
  revert ch. induction s as [|c s IH]; intros ch H; [contradiction|].
  cbn [characters] in H. destruct (characters s) as [|x xs].
  - destruct H as [<- | []]. reflexivity.
  - destruct (continues x).
    + destruct H as [<- | H]; [reflexivity|]. apply IH. now right.
    + destruct H as [<- | H]; [reflexivity|]. now apply IH.
Qed.

Lemma drop_spaces_all (chs : list string) :
  forallb is_space chs = true -> drop_spaces chs = [].
Proof.
  induction chs as [|ch chs IH]; intros H; [reflexivity|].
  cbn [forallb] in H. apply andb_true_iff in H as [Hch Hchs].
  cbn [drop_spaces]. rewrite Hch. now apply IH.
Qed.

(** What is left starts with the first character that is not white
    space. *)
Lemma drop_spaces_some (chs : list string) :
  forallb is_space chs = false ->
  exists ch rest,
    drop_spaces chs = ch :: rest /\ is_space ch = false /\ In ch chs.
Proof.
  induction chs as [|x chs IH]; intros H; [discriminate|].
  cbn [forallb] in H. cbn [drop_spaces]. destruct (is_space x) eqn:Hx.
  - destruct (IH H) as (ch & rest & Hd & Hch & Hin).
    exists ch, rest. repeat split; auto. now right.
  - exists x, chs. repeat split; auto. now left.
Qed.

Lemma drop_spaces_last (chs : list string) (ch : string) :
  is_space ch = false -> exists m, drop_spaces (chs ++ [ch]) = m ++ [ch].
Proof.
  intros Hch. induction chs as [|x chs IH]; simpl.
  - rewrite Hch. now exists [].
  - destruct (is_space x); [exact IH|]. now exists (x :: chs).
Qed.

(** The trimmed text is empty exactly for the blank texts. *)
Lemma truthy_trim (s : string) : truthy (trim s) = negb (blank s).
Proof.
  unfold trim, blank. destruct (forallb is_space (characters s)) eqn:E.
  - now rewrite (drop_spaces_all _ E).
  - destruct (drop_spaces_some _ E) as (ch & rest & -> & Hch & Hin).
    cbn [rev]. destruct (drop_spaces_last (rev rest) ch Hch) as [m ->].
    rewrite rev_app_distr. cbn [rev app join fold_right].
    pose proof (characters_nonempty s ch Hin) as Hne.
    destruct ch; [discriminate|]. reflexivity.
Qed.

(** A white space character does not start with a continuation unit. *)
Lemma space_starts_character (ch : string) :
  is_space ch = true -> continues ch = false.
Proof.
  unfold is_space. intros H. apply existsb_exists in H as (w & Hw & Heq).
  apply String.eqb_eq in Heq. subst w.
  repeat (destruct Hw as [<- | Hw]; [reflexivity|]). contradiction.
Qed.

(** A text of ASCII white space is blank. *)
Lemma spaces_blank (q : string) : spaces q = true -> blank q = true.
Proof.
  unfold blank. induction q as [|c q IH]; intros H; [reflexivity|].
  cbn [spaces] in H. apply andb_true_iff in H as [Hc Hq].
  specialize (IH Hq). cbn [characters].
  destruct (characters q) as [|x xs]; cbn [forallb].
  - now rewrite Hc.
  - cbn [forallb] in IH. apply andb_true_iff in IH as [Hx Hxs].
    rewrite (space_starts_character x Hx). cbn [forallb].
    now rewrite Hc, Hx, Hxs.
Qed.

(** X16.  The fetch decision: a debounced text that is empty or all white
    space (any white space that [trim] removes, the no-break space and the
    other spaces beyond ASCII included) makes a list read, any other text
    makes a search read; the text that a search read carries is never
    empty, so the search route is never asked for an empty text. *)
Theorem fetch_decision (s : App) :
  (blank (debouncedSearchText s) = true ->
   fetchStudents s
   = GetStudents (page (pagination s)) (limit (pagination s)))
  /\ (blank (debouncedSearchText s) = false ->
      fetchStudents s
      = GetSearch (encodeURIComponent (trim (debouncedSearchText s)))
          (page (pagination s)) (limit (pagination s))
      /\ encodeURIComponent (trim (debouncedSearchText s)) <> EmptyString).
Proof.
  unfold fetchStudents. rewrite truthy_trim. split; intros Hb; rewrite Hb.
  - reflexivity.
  - split; [reflexivity|]. intros He.
    pose proof (encode_nonempty (trim (debouncedSearchText s))) as Hn.
    rewrite truthy_trim, Hb, He in Hn. now specialize (Hn eq_refl).
Qed.

Lemma fetch_decision_witness :
  fetchStudents
    (mkApp [] (Sample.nbsp ++ " ") false (mkPaginationData 12 2 5 3)
       (Sample.nbsp ++ " ") None)
  = GetStudents 2 5
  /\ (fetchStudents
        (mkApp [] (Sample.nbsp ++ " a b ") false (mkPaginationData 12 2 5 3)
           (Sample.nbsp ++ " a b ") None)
      = GetSearch "a%20b" 2 5
      /\ "a%20b"%string <> EmptyString).
Proof.
  split.
  - apply (proj1 (fetch_decision
                    (mkApp [] (Sample.nbsp ++ " ") false
                       (mkPaginationData 12 2 5 3) (Sample.nbsp ++ " ")
                       None))).
    vm_compute. reflexivity.
  - exact (proj2 (fetch_decision
                    (mkApp [] (Sample.nbsp ++ " a b ") false
                       (mkPaginationData 12 2 5 3) (Sample.nbsp ++ " a b ")
                       None)) eq_refl).
Defined.

End SearchTextProps.

(* ================================================================= *)
(** ** The controls of the coordinator *)

Module ControlProps.
Import Js Client Spec Tactics ClientFacts Controls.

Lemma In_count_up (k : nat) :
  forall start n,
    In n (count_up start k) <-> start <= n < start + Z.of_nat k.
Proof.
  induction k as [|k IH]; intros start n; cbn [count_up In].
  - split; [contradiction | lia].
  - rewrite IH. lia.
Qed.

Lemma length_count_up (k : nat) (start : Z) :
  List.length (count_up start k) = k.
Proof.
  revert start. induction k as [|k IH]; intros start; cbn [count_up];
    [reflexivity|]. cbn [List.length]. now rewrite IH.
Qed.

(** The page buttons, for a page within the pages: the numbers from
    [start], as many as there are pages up to five. *)
Lemma page_buttons (p : PaginationData) :
  1 <= page p <= totalPages p ->
  exists start,
    renderPaginationNumbers p
    = count_up start (Z.to_nat (Z.min 5 (totalPages p)))
    /\ 1 <= start <= page p
    /\ page p < start + Z.min 5 (totalPages p) <= totalPages p + 1.
Proof.
  intros Hp. unfold renderPaginationNumbers, from_to, maxVisible.
  change (5 / 2) with 2.
  destruct (Z.min (Z.max 1 (page p - 2) + 5 - 1) (totalPages p)
            - Z.max 1 (page p - 2) + 1 <? 5) eqn:Hshort.
  - apply Z.ltb_lt in Hshort. eexists.
    split; [apply f_equal; lia | lia].
  - apply Z.ltb_ge in Hshort. eexists.
    split; [apply f_equal; lia | lia].
Qed.

(** X18.  The page buttons and the "Previous" and "Next" controls, when the
    page shown is one of the pages: the buttons are consecutive numbers, as
    many as there are pages up to five, the page shown is one of them, and
    every page that a control asks for is one of the pages 1 to
    [totalPages]. *)
Theorem page_controls_stay_in_range (s : App) :
  1 <= page (pagination s) <= totalPages (pagination s) ->
  let buttons := renderPaginationNumbers (pagination s) in
  (exists start, buttons = count_up start (List.length buttons))
  /\ Z.of_nat (List.length buttons) = Z.min 5 (totalPages (pagination s))
  /\ In (page (pagination s)) buttons
  /\ (forall n, In n buttons -> 1 <= n <= totalPages (pagination s))
  /\ (forall n, In n (navigation s) -> 1 <= n <= totalPages (pagination s)).
Proof.
  intros Hp buttons.
  destruct (page_buttons (pagination s) Hp) as (start & Hb & Hstart & Hstop).
  assert (Hlen : List.length buttons
                 = Z.to_nat (Z.min 5 (totalPages (pagination s)))).
  { subst buttons. now rewrite Hb, length_count_up. }
  assert (Hin : forall n, In n buttons ->
                          1 <= n <= totalPages (pagination s)).
  { intros n Hn. subst buttons. rewrite Hb in Hn.
    apply In_count_up in Hn. lia. }
  split; [|split; [|split; [|split]]].
  - exists start. rewrite Hlen. exact Hb.
  - rewrite Hlen. lia.
  - subst buttons. rewrite Hb. apply In_count_up. lia.
  - exact Hin.
  - intros n. unfold navigation.
    destruct (totalPages (pagination s) >? 1); [|contradiction].
    intros Hn. apply in_app_or in Hn as [Hn | Hn];
      [|apply in_app_or in Hn as [Hn | Hn]].
    + destruct (page (pagination s) =? 1) eqn:E; [contradiction|].
      apply Z.eqb_neq in E.
      destruct (isLoading s); [contradiction|].
      destruct Hn as [<- | []]. lia.
    + now apply Hin.
    + destruct (page (pagination s) =? totalPages (pagination s)) eqn:E;
        [contradiction|].
      apply Z.eqb_neq in E.
      destruct (isLoading s); [contradiction|].
      destruct Hn as [<- | []]. lia.
Qed.

Lemma page_controls_stay_in_range_witness :
  let s := mkApp [] "" false (mkPaginationData 40 7 5 8) "" None in
  let buttons := renderPaginationNumbers (pagination s) in
  (exists start, buttons = count_up start (List.length buttons))
  /\ Z.of_nat (List.length buttons) = Z.min 5 (totalPages (pagination s))
  /\ In (page (pagination s)) buttons
  /\ (forall n, In n buttons -> 1 <= n <= totalPages (pagination s))
  /\ (forall n, In n (navigation s) -> 1 <= n <= totalPages (pagination s)).
Proof.
  apply (page_controls_stay_in_range
           (mkApp [] "" false (mkPaginationData 40 7 5 8) "" None)).
  cbn. lia.
Defined.

Example page_buttons_near_the_end :
  renderPaginationNumbers (mkPaginationData 40 7 5 8) = [4; 5; 6; 7; 8].
Proof. reflexivity. Qed.

(** One round of effects sends nothing and leaves the loading flag, or
    sends one request from an idle coordinator and raises the flag. *)
Lemma commit_sends (prev cur : App) :
  (snd (commit prev cur) = []
   /\ isLoading (fst (commit prev cur)) = isLoading cur)
  \/ (isLoading cur = false /\ isLoading (fst (commit prev cur)) = true
      /\ exists q, snd (commit prev cur) = [q]).
Proof.
  unfold commit. destruct (fetch_effect prev cur) eqn:F; cbn [fst snd isLoading].
  - right. unfold fetch_effect in F. apply andb_true_iff in F as [_ F].
    apply negb_true_iff in F. split; [exact F|]. split; [reflexivity|].
    now eexists.
  - left. auto.
Qed.

(** What the renders after an update send, and how busy they leave the
    coordinator. *)
Lemma render_sends_once (prev cur : App) :
  (List.length (snd (render prev cur)) <= 1)%nat
  /\ (isLoading cur = true ->
      snd (render prev cur) = []
      /\ isLoading (fst (render prev cur)) = true)
  /\ (snd (render prev cur) <> [] ->
      isLoading (fst (render prev cur)) = true).
Proof.
  unfold render. cbn [rerender].
  pose proof (commit_sends prev cur) as H1.
  destruct (commit prev cur) as [s1 r1]. cbn [fst snd] in H1.
  pose proof (commit_sends cur s1) as H2.
  destruct (commit cur s1) as [s2 r2]. cbn [fst snd] in *.
  rewrite app_nil_r.
  destruct H1 as [[-> L1] | (L0 & L1 & q1 & ->)],
           H2 as [[-> L2] | (L1' & L2 & q2 & ->)];
    cbn [app List.length]; repeat split; try lia; try congruence.
Qed.

(** X19.  One request at a time: an event sends one request at most; while
    a request is in flight no event but its answer sends a request, and the
    coordinator stays busy; and whenever a request is sent the coordinator
    is busy afterwards. *)
Theorem one_request_at_a_time (s : App) (e : Event) :
  (List.length (snd (step s e)) <= 1)%nat
  /\ (isLoading s = true -> is_reply e = false ->
      snd (step s e) = [] /\ isLoading (fst (step s e)) = true)
  /\ (snd (step s e) <> [] -> isLoading (fst (step s e)) = true).
Proof.
  assert (Hquiet : (List.length (@nil Request) <= 1)%nat) by (simpl; lia).
  destruct e as [v | | | n | ms | st pg | ]; cbn [step is_reply].
  - unfold handleSearchChange.
    destruct (render_sends_once s
                (mkApp (students s) v (isLoading s) (pagination s)
                   (debouncedSearchText s) (timeout s))) as (H1 & H2 & H3).
    cbn [isLoading] in H2. auto.
  - unfold handleSearch.
    destruct (render_sends_once s
                (mkApp (students s) (searchText s) (isLoading s)
                   (set_page 1 (pagination s)) (debouncedSearchText s)
                   (timeout s))) as (H1 & H2 & H3).
    cbn [isLoading] in H2. auto.
  - unfold handleClearSearch.
    destruct (render_sends_once s
                (mkApp (students s) "" (isLoading s)
                   (set_page 1 (pagination s)) (debouncedSearchText s)
                   (timeout s))) as (H1 & H2 & H3).
    cbn [isLoading] in H2. auto.
  - unfold handlePageChange.
    destruct ((n <? 1) || (n >? totalPages (pagination s)) || isLoading s).
    + cbn [fst snd]. repeat split; auto; try congruence.
    + destruct (render_sends_once s
                  (mkApp (students s) (searchText s) (isLoading s)
                     (set_page n (pagination s)) (debouncedSearchText s)
                     (timeout s))) as (H1 & H2 & H3).
      cbn [isLoading] in H2. auto.
  - unfold elapse. destruct (timeout s) as [[due value]|].
    + destruct (ms <? due)%nat.
      * cbn [fst snd isLoading]. repeat split; auto; try congruence.
      * destruct (render_sends_once s
                    (mkApp (students s) (searchText s) (isLoading s)
                       (pagination s) value None)) as (H1 & H2 & H3).
        cbn [isLoading] in H2. auto.
    + cbn [fst snd]. repeat split; auto; try congruence.
  - unfold fetch_fulfilled.
    destruct (render_sends_once s
                (mkApp st (searchText s) false pg (debouncedSearchText s)
                   (timeout s))) as (H1 & H2 & H3).
    repeat split; auto; discriminate.
  - unfold fetch_rejected.
    destruct (render_sends_once s
                (mkApp (students s) (searchText s) false (pagination s)
                   (debouncedSearchText s) (timeout s))) as (H1 & H2 & H3).
    repeat split; auto; discriminate.
Qed.

Lemma one_request_at_a_time_witness :
  let busy := fst (handlePageChange Sample.on_page_two 3) in
  (List.length (snd (step busy (SearchChange "anne"))) <= 1)%nat
  /\ (snd (step busy (SearchChange "anne")) = []
      /\ isLoading (fst (step busy (SearchChange "anne"))) = true)
  /\ (snd (step busy (SearchChange "anne")) <> [] ->
      isLoading (fst (step busy (SearchChange "anne"))) = true).
Proof.
  intros busy.
  destruct (one_request_at_a_time busy (SearchChange "anne"))
    as (H1 & H2 & H3).
  split; [exact H1|]. split; [|exact H3].
  apply H2; vm_compute; reflexivity.
Defined.

(** X20.  The "Search" button only goes back to page 1: on page 1 it sends
    nothing and changes nothing, so a text that is typed but not yet
    debounced is not searched for by the button; on a later page, when
    idle, it sets page 1 and sends one read for page 1 with the debounced
    text, not the raw text. *)
Theorem search_button (s : App) :
  (page (pagination s) = 1 -> handleSearch s = (s, []))
  /\ (page (pagination s) <> 1 -> isLoading s = false ->
      handleSearch s
      = (mkApp (students s) (searchText s) true (set_page 1 (pagination s))
           (debouncedSearchText s) (timeout s),
         [fetchStudents
            (mkApp (students s) (searchText s) false
               (set_page 1 (pagination s)) (debouncedSearchText s)
               (timeout s))])).
Proof.
  split.
  - intros Hp. unfold handleSearch. rewrite (set_page_same _ 1 Hp).
    replace (mkApp (students s) (searchText s) (isLoading s) (pagination s)
               (debouncedSearchText s) (timeout s)) with s by now destruct s.
    apply render_changes_nothing.
  - intros Hp Hidle. unfold handleSearch. apply render_page; congruence.
Qed.

Lemma search_button_witness :
  handleSearch
    (mkApp [] "anne" false (mkPaginationData 12 1 5 3) "ann" (Some (300%nat, "anne"%string)))
  = (mkApp [] "anne" false (mkPaginationData 12 1 5 3) "ann"
       (Some (300%nat, "anne"%string)), [])
  /\ snd (handleSearch Sample.on_page_two) = [GetSearch "ann" 1 5].
Proof.
  split.
  - apply (proj1 (search_button
                    (mkApp [] "anne" false (mkPaginationData 12 1 5 3) "ann"
                       (Some (300%nat, "anne"%string))))).
    reflexivity.
  - rewrite (proj2 (search_button Sample.on_page_two));
      [vm_compute; reflexivity | vm_compute; discriminate
      | vm_compute; reflexivity].
Defined.

End ControlProps.

(* ================================================================= *)
(** ** The product routes *)

Module ProductProps.
Import Js Products.

Lemma split_comma_nonempty (s : string) : split_comma s <> [].
Proof.
  destruct s as [|c s]; cbn [split_comma]; [discriminate|].
  destruct (Ascii.eqb c ","); [discriminate|].
  destruct (split_comma s); discriminate.
Qed.

(** A text without a comma is one piece. *)
Lemma split_comma_free (a : string) :
  comma_free a = true -> split_comma a = [a].
Proof.
  induction a as [|c a IH]; intros H; [reflexivity|].
  cbn [comma_free] in H. apply andb_true_iff in H as [Hc Ha].
  apply negb_true_iff in Hc. cbn [split_comma]. now rewrite Hc, (IH Ha).
Qed.

(** The first comma ends the first piece. *)
Lemma split_comma_first (a b : string) :
  comma_free a = true ->
  split_comma (a ++ String "," b) = a :: split_comma b.
Proof.
  induction a as [|c a IH]; intros H.
  - reflexivity.
  - cbn [comma_free] in H. apply andb_true_iff in H as [Hc Ha].
    apply negb_true_iff in Hc. cbn [String.append split_comma].
    now rewrite Hc, (IH Ha).
Qed.

Lemma has_topping_cons (n : string) (ns : list string) (d : Stored) :
  has_topping (n :: ns) d = has_topping [n] d || has_topping ns d.
Proof.
  apply Bool.eq_iff_eq_true. rewrite orb_true_iff. unfold has_topping.
  rewrite !existsb_exists. split.
  - intros (t & Ht & H). cbn [existsb] in H.
    apply orb_true_iff in H as [H | H].
    + left. exists t. split; [exact Ht|]. cbn [existsb]. now rewrite H.
    + right. now exists t.
  - intros [(t & Ht & H) | (t & Ht & H)]; exists t; (split; [exact Ht|]);
      cbn [existsb] in *.
    + rewrite orb_false_r in H. now rewrite H.
    + rewrite H. apply orb_true_r.
Qed.

Lemma has_topping_one (n : string) (d : Stored) :
  has_topping [n] d = true <->
  exists t, In t (top (product d)) /\ top_name t = n.
Proof.
  unfold has_topping. rewrite existsb_exists.
  split; intros (t & Ht & H); exists t; (split; [exact Ht|]).
  - cbn [existsb] in H. rewrite orb_false_r in H. now apply String.eqb_eq.
  - cbn [existsb]. rewrite orb_false_r. now apply String.eqb_eq.
Qed.

(** X21.  The topping route takes a list of names separated by commas: the
    products found for [a,b] are those found for [a] together with those
    found for [b], and the products found for a single name are the
    products of the store that have a topping of exactly that name. *)
Theorem topping_search (coll : Collection) (a b : string) :
  comma_free a = true ->
  exists both first rest,
    get_products_topping coll (a ++ String "," b) = Ok both
    /\ get_products_topping coll a = Ok first
    /\ get_products_topping coll b = Ok rest
    /\ (forall d, In d both <-> In d first \/ In d rest)
    /\ (forall d, In d first <->
          In d (documents coll)
          /\ exists t, In t (top (product d)) /\ top_name t = a).
Proof.
  intros Ha. unfold get_products_topping.
  rewrite (split_comma_first a b Ha), (split_comma_free a Ha).
  do 3 eexists. repeat (split; [reflexivity|]). split.
  - intros d. rewrite !filter_In, has_topping_cons, orb_true_iff. tauto.
  - intros d. now rewrite filter_In, has_topping_one.
Qed.

Lemma topping_search_witness :
  exists both first rest,
    get_products_topping
      (mkCollection
         [mkStored 1%N (mkProduct "cake" 40 [mkTop "dark"]);
          mkStored 2%N (mkProduct "bun" 25 [mkTop "white"; mkTop "nut"])]
         3%N) ("dark" ++ String "," "white") = Ok both
    /\ get_products_topping
         (mkCollection
            [mkStored 1%N (mkProduct "cake" 40 [mkTop "dark"]);
             mkStored 2%N (mkProduct "bun" 25 [mkTop "white"; mkTop "nut"])]
            3%N) "dark" = Ok first
    /\ get_products_topping
         (mkCollection
            [mkStored 1%N (mkProduct "cake" 40 [mkTop "dark"]);
             mkStored 2%N (mkProduct "bun" 25 [mkTop "white"; mkTop "nut"])]
            3%N) "white" = Ok rest
    /\ (forall d, In d both <-> In d first \/ In d rest)
    /\ (forall d, In d first <->
          In d [mkStored 1%N (mkProduct "cake" 40 [mkTop "dark"]);
                mkStored 2%N (mkProduct "bun" 25 [mkTop "white"; mkTop "nut"])]
          /\ exists t, In t (top (product d)) /\ top_name t = "dark"%string).
Proof.
  apply (topping_search
           (mkCollection
              [mkStored 1%N (mkProduct "cake" 40 [mkTop "dark"]);
               mkStored 2%N (mkProduct "bun" 25 [mkTop "white"; mkTop "nut"])]
              3%N) "dark" "white").
  reflexivity.
Defined.

Lemma find_newest (p : Stored -> bool) (ds : list Stored) (x : Stored) :
  (forall d, In d ds -> p d = false) -> p x = true ->
  List.find p (ds ++ [x]) = Some x.
Proof.
  intros Hds Hx. induction ds as [|d ds IH]; simpl.
  - now rewrite Hx.
  - rewrite (Hds d (or_introl eq_refl)). apply IH. intros d' Hd'.
    apply Hds. now right.
Qed.

Lemma find_before_last (p : Stored -> bool) (ds : list Stored) (x y : Stored) :
  (forall d, In d ds -> p d = false) -> p x = true ->
  List.find p (ds ++ [x; y]) = Some x.
Proof.
  intros Hds Hx. induction ds as [|d ds IH]; simpl.
  - now rewrite Hx.
  - rewrite (Hds d (or_introl eq_refl)). apply IH. intros d' Hd'.
    apply Hds. now right.
Qed.

(** X22.  Products have no natural key: a create is never refused, and the
    same product created twice is stored twice, under two ids, each of
    which finds its own copy. *)
Theorem product_created_twice (coll : Collection) (body : Product)
  (id1 id2 : string) :
  well_formed coll ->
  Mongo.new_ObjectId id1 = Ok (next_id coll) ->
  Mongo.new_ObjectId id2 = Ok (N.succ (next_id coll)) ->
  let twice := fst (post_products (fst (post_products coll body)) body) in
  documents twice
  = documents coll ++ [mkStored (next_id coll) body;
                       mkStored (N.succ (next_id coll)) body]
  /\ get_products_id twice id1 = Ok (mkStored (next_id coll) body)
  /\ get_products_id twice id2 = Ok (mkStored (N.succ (next_id coll)) body).
Proof.
  intros [_ Hissued] H1 H2 twice. subst twice.
  cbn [post_products fst documents next_id].
  rewrite <- app_assoc. cbn [app]. split; [reflexivity|].
  unfold get_products_id. rewrite H1, H2. cbn [bind documents].
  split.
  - rewrite find_before_last; [reflexivity | | ].
    + intros d Hd. unfold by_id. apply N.eqb_neq.
      apply Hissued in Hd. lia.
    + unfold by_id. apply N.eqb_refl.
  - change [mkStored (next_id coll) body; mkStored (N.succ (next_id coll)) body]
      with ([mkStored (next_id coll) body]
            ++ [mkStored (N.succ (next_id coll)) body]).
    rewrite app_assoc, find_newest; [reflexivity | | ].
    + intros d Hd. unfold by_id. apply N.eqb_neq.
      apply in_app_or in Hd as [Hd | [<- | []]].
      * apply Hissued in Hd. lia.
      * cbn [_id]. lia.
    + unfold by_id. apply N.eqb_refl.
Qed.

Lemma product_created_twice_witness :
  let twice := fst (post_products
                      (fst (post_products empty (mkProduct "cake" 40 [])))
                      (mkProduct "cake" 40 [])) in
  documents twice
  = documents empty ++ [mkStored (next_id empty) (mkProduct "cake" 40 []);
                        mkStored (N.succ (next_id empty))
                          (mkProduct "cake" 40 [])]
  /\ get_products_id twice Sample.id1
     = Ok (mkStored (next_id empty) (mkProduct "cake" 40 []))
  /\ get_products_id twice Sample.id2
     = Ok (mkStored (N.succ (next_id empty)) (mkProduct "cake" 40 [])).
Proof.
  apply (product_created_twice empty (mkProduct "cake" 40 [])
           Sample.id1 Sample.id2).
  - split; [constructor | intros d []].
  - reflexivity.
  - reflexivity.
Defined.

Lemma no_product_with_id (p : Stored -> bool) (ds : list Stored) :
  (forall d, In d ds -> p d = false) -> split_first p ds = None.
Proof.
  induction ds as [|d ds IH]; intros H; cbn [split_first]; [reflexivity|].
  rewrite (H d (or_introl eq_refl)), IH; [reflexivity|].
  intros d' Hd'. apply H. now right.
Qed.

Lemma first_product_with_id (p : Stored -> bool) (ds : list Stored) (x : Stored) :
  In x ds -> p x = true ->
  exists before y after,
    split_first p ds = Some (before, y, after)
    /\ ds = before ++ y :: after /\ p y = true
    /\ forall d, In d before -> p d = false.
Proof.
  induction ds as [|d ds IH]; intros Hx Hp; [contradiction|].
  cbn [split_first]. destruct (p d) eqn:Hd.
  - exists [], d, ds. repeat split; auto. intros d' [].
  - destruct Hx as [-> | Hx]; [congruence|].
    destruct (IH Hx Hp) as (b & y & a & -> & -> & Hy & Hb).
    exists (d :: b), y, a. repeat split; auto.
    intros d' [<- | Hd']; auto.
Qed.

Lemma find_none_by_id (oid : Mongo.ObjectId) (ds : list Stored) :
  (forall d, In d ds -> _id d <> oid) -> List.find (by_id oid) ds = None.
Proof.
  induction ds as [|d ds IH]; intros H; simpl; [reflexivity|].
  unfold by_id at 1.
  replace (N.eqb (_id d) oid) with false
    by (symmetry; apply N.eqb_neq; now apply H; left).
  apply IH. intros d' Hd'. apply H. now right.
Qed.

Lemma find_middle (oid : Mongo.ObjectId) (before after : list Stored)
  (x : Stored) :
  (forall d, In d before -> by_id oid d = false) -> _id x = oid ->
  List.find (by_id oid) (before ++ x :: after) = Some x.
Proof.
  intros Hb Hx. induction before as [|d before IH]; simpl.
  - unfold by_id. now rewrite Hx, N.eqb_refl.
  - rewrite (Hb d (or_introl eq_refl)). apply IH. intros d' Hd'.
    apply Hb. now right.
Qed.

(** X23.  The product routes by id.  For an id that no product has, the
    read, the update and the delete each throw their own message and leave
    the store as it is.  For the id of a product, the update replaces the
    product and keeps the id, so that the read by that id returns the new
    product, and the delete removes one document, after which the read by
    that id finds nothing. *)
Theorem product_by_id (coll : Collection) (id : string)
  (oid : Mongo.ObjectId) (body : Product) :
  well_formed coll -> Mongo.new_ObjectId id = Ok oid ->
  ((forall d, In d (documents coll) -> _id d <> oid) ->
   get_products_id coll id = Throw (Text "Can't find this product.")
   /\ put_products_id coll id body
      = (coll, Throw (Text "Can't find this product to update."))
   /\ delete_products_id coll id
      = (coll, Throw (Text "Can't find this product to delete.")))
  /\ (forall x, In x (documents coll) -> _id x = oid ->
      snd (put_products_id coll id body) = Ok (mkUpdated id body)
      /\ get_products_id (fst (put_products_id coll id body)) id
         = Ok (mkStored oid body)
      /\ snd (delete_products_id coll id)
         = Ok (mkNotice "Product deleted successfully")
      /\ get_products_id (fst (delete_products_id coll id)) id
         = Throw (Text "Can't find this product.")
      /\ S (List.length (documents (fst (delete_products_id coll id))))
         = List.length (documents coll)).
Proof.
  intros [Hnodup Hissued] Hparse. split.
  - intros Hnone.
    assert (Hsplit : split_first (by_id oid) (documents coll) = None).
    { apply no_product_with_id. intros d Hd. unfold by_id.
      apply N.eqb_neq. now apply Hnone. }
    unfold get_products_id, put_products_id, delete_products_id.
    rewrite Hparse, Hsplit. cbn [bind].
    now rewrite (find_none_by_id oid _ Hnone).
  - intros x Hx Hid.
    destruct (first_product_with_id (by_id oid) (documents coll) x Hx)
      as (b & y & a & Hsplit & Hdocs & Hy & Hb).
    { unfold by_id. rewrite Hid. apply N.eqb_refl. }
    unfold by_id in Hy. apply N.eqb_eq in Hy.
    assert (Hothers : forall d, In d (b ++ a) -> _id d <> oid).
    { intros d Hd Hd'. rewrite Hdocs, map_app in Hnodup. cbn [map] in Hnodup.
      apply NoDup_remove_2 in Hnodup. apply Hnodup. rewrite <- map_app.
      rewrite Hy, <- Hd'. now apply in_map. }
    unfold put_products_id, delete_products_id.
    rewrite Hparse, Hsplit. cbn [fst snd].
    split; [reflexivity|]. split; [|split; [reflexivity|split]].
    + unfold get_products_id. rewrite Hparse. cbn [bind documents].
      rewrite Hy. now rewrite (find_middle oid b a (mkStored oid body) Hb).
    + unfold get_products_id. rewrite Hparse. cbn [bind documents].
      now rewrite (find_none_by_id oid _ Hothers).
    + cbn [documents]. rewrite Hdocs, !length_app. cbn [List.length]. lia.
Qed.

Lemma product_by_id_witness :
  let shelf :=
    mkCollection
      [mkStored 1%N (mkProduct "cake" 40 [mkTop "dark"]);
       mkStored 2%N (mkProduct "bun" 25 [mkTop "white"; mkTop "nut"])] 3%N in
  (get_products_id shelf Sample.id9 = Throw (Text "Can't find this product.")
   /\ put_products_id shelf Sample.id9 (mkProduct "pie" 30 [])
      = (shelf, Throw (Text "Can't find this product to update."))
   /\ delete_products_id shelf Sample.id9
      = (shelf, Throw (Text "Can't find this product to delete.")))
  /\ (snd (put_products_id shelf Sample.id2 (mkProduct "pie" 30 []))
      = Ok (mkUpdated Sample.id2 (mkProduct "pie" 30 []))
      /\ get_products_id
           (fst (put_products_id shelf Sample.id2 (mkProduct "pie" 30 [])))
           Sample.id2
         = Ok (mkStored 2%N (mkProduct "pie" 30 []))
      /\ snd (delete_products_id shelf Sample.id2)
         = Ok (mkNotice "Product deleted successfully")
      /\ get_products_id (fst (delete_products_id shelf Sample.id2)) Sample.id2
         = Throw (Text "Can't find this product.")
      /\ S (List.length (documents (fst (delete_products_id shelf Sample.id2))))
         = List.length (documents shelf)).
Proof.
  intros shelf.
  assert (Hwf : well_formed shelf).
  { split.
    - repeat constructor; simpl; intuition discriminate.
    - intros d [<- | [<- | []]]; reflexivity. }
  split.
  - apply (proj1 (product_by_id shelf Sample.id9 9%N (mkProduct "pie" 30 [])
                    Hwf eq_refl)).
    intros d [<- | [<- | []]]; discriminate.
  - apply (proj2 (product_by_id shelf Sample.id2 2%N (mkProduct "pie" 30 [])
                    Hwf eq_refl)
             (mkStored 2%N (mkProduct "bun" 25 [mkTop "white"; mkTop "nut"]))).
    + right. left. reflexivity.
    + reflexivity.
Defined.

End ProductProps.

(* ================================================================= *)
(** ** The search route: a broken escape, and a record just created *)

Module SearchProps.
Import Js Mongo Server Spec JsFacts MongoFacts StoreStates Mutations.
Import QueryProps StudentById.

Lemma uri_units_stray_percent (s : string) :
  percent_free s = true ->
  uri_units (s ++ "%") = Throw (Native MalformedURI).
Proof.
  induction s as [|c s IH]; intros H; [reflexivity|].
  cbn [percent_free] in H. apply andb_true_iff in H as [Hc Hs].
  apply negb_true_iff in Hc. cbn [String.append uri_units].
  now rewrite Hc, (IH Hs).
Qed.

(** X24.  A search text that ends in a lone [%] is not a valid escaped
    text: the search answers 400 with the message of the decoder, whatever
    the store holds and whatever page is asked for. *)
Theorem broken_escape_is_refused (plan : Plan) (coll : Collection)
  (s : string) (query : Query) :
  percent_free s = true ->
  get_students_search_text plan coll (s ++ "%") query
  = Some (Ok (Response (Native MalformedURI) 400)).
Proof.
  intros H. unfold get_students_search_text, decodeURIComponent.
  now rewrite (uri_units_stray_percent s H).
Qed.

Lemma broken_escape_is_refused_witness :
  get_students_search_text natural Sample.two_records ("100" ++ "%")
    Sample.defaults
  = Some (Ok (Response (Native MalformedURI) 400)).
Proof.
  apply (broken_escape_is_refused natural Sample.two_records "100"
           Sample.defaults).
  reflexivity.
Defined.

(** X25.  Round trip of a create through the search: after a create, a
    search for a text that one of the new record's fields contains (a text
    without regular-expression syntax characters, in any letter case)
    counts one record more than before, on every page; and when the limit
    holds all the hits, the page returned has them all, the new record
    among them, whatever the order in which the store returns hits. *)
Theorem created_record_is_searchable (plan : Plan) (coll : Collection)
  (body : Student) (text q : string) (lim : Z) :
  lawful plan ->
  consistent coll -> ~ key_taken coll (student_id body) ->
  decodeURIComponent text = Ok q -> ordinary q = true ->
  some_field_contains q (mkDocument (next_id coll) body) ->
  0 < lim ->
  let coll' := fst (post_students coll body) in
  let before :=
    Z.of_nat (List.length
                (List.filter (matches (literal_filter q)) (documents coll))) in
  (forall pg, 1 <= pg ->
     exists found,
       get_students_search_text plan coll' text (mkQuery (Int pg) (Int lim))
       = Some (Ok (Json (mkPage found
                           (mkPagination (before + 1) pg lim
                              (ceil_div (before + 1) lim))))))
  /\ (before < lim ->
      exists found,
        get_students_search_text plan coll' text (mkQuery (Int 1) (Int lim))
        = Some (Ok (Json (mkPage found
                            (mkPagination (before + 1) 1 lim 1))))
        /\ In (mkDocument (next_id coll) body) found
        /\ Z.of_nat (List.length found) = before + 1).
Proof.
  intros Hplan Hc Hfree Ht Hq Hhas Hlim coll' before. subst coll'.
  rewrite (post_created coll body (indexes_own coll Hc) Hfree). cbn [fst].
  set (d := mkDocument (next_id coll) body) in *.
  set (coll' := mkCollection (documents coll ++ [d]) (indexes coll)
                  (N.succ (next_id coll))).
  assert (Hhits :
    List.filter (matches (literal_filter q)) (documents coll')
    = List.filter (matches (literal_filter q)) (documents coll) ++ [d]).
  { subst coll'. cbn [documents]. rewrite filter_app. cbn [List.filter].
    now rewrite (proj2 (literal_filter_matches q d) Hhas). }
  assert (Hcount :
    Z.of_nat (List.length
                (List.filter (matches (literal_filter q)) (documents coll')))
    = before + 1).
  { rewrite Hhits, length_app. subst before. simpl. lia. }
  assert (Hnn : 0 <= before) by (subst before; lia).
  clearbody before.
  split.
  - intros pg Hpg. eexists.
    rewrite (search_answer plan coll' text q pg lim Ht Hq Hpg Hlim).
    rewrite Hcount. reflexivity.
  - intros Hfit.
    exists (plan (List.filter (matches (literal_filter q)) (documents coll'))).
    assert (Hlen :
      Z.of_nat (List.length
                  (plan (List.filter (matches (literal_filter q))
                           (documents coll'))))
      = before + 1).
    { now rewrite (lawful_length plan _ Hplan). }
    split; [|split].
    + rewrite (search_answer plan coll' text q 1 lim Ht Hq (Z.le_refl 1) Hlim).
      rewrite Hcount. replace ((1 - 1) * lim) with 0 by lia.
      cbn [Z.to_nat skipn].
      rewrite firstn_all2
        by (apply Nat2Z.inj_le; rewrite Z2Nat.id by lia; lia).
      replace (ceil_div (before + 1) lim) with 1; [reflexivity|].
      pose proof (ceil_div_bounds (before + 1) lim Hlim) as Hb. nia.
    + apply (lawful_In plan _ d Hplan). rewrite Hhits.
      apply in_or_app. right. now left.
    + exact Hlen.
Qed.

Lemma created_record_is_searchable_witness :
  let coll' := fst (post_students Sample.one_record Sample.bob) in
  let before :=
    Z.of_nat (List.length
                (List.filter (matches (literal_filter "6"))
                   (documents Sample.one_record))) in
  (forall pg, 1 <= pg ->
     exists found,
       get_students_search_text Sample.newest_first coll' "6"
         (mkQuery (Int pg) (Int 5))
       = Some (Ok (Json (mkPage found
                           (mkPagination (before + 1) pg 5
                              (ceil_div (before + 1) 5))))))
  /\ (before < 5 ->
      exists found,
        get_students_search_text Sample.newest_first coll' "6"
          (mkQuery (Int 1) (Int 5))
        = Some (Ok (Json (mkPage found
                            (mkPagination (before + 1) 1 5 1))))
        /\ In (mkDocument (next_id Sample.one_record) Sample.bob) found
        /\ Z.of_nat (List.length found) = before + 1).
Proof.
  apply (created_record_is_searchable Sample.newest_first Sample.one_record
           Sample.bob "6" "6" 5).
  - exact lawful_newest_first.
  - exact one_record_consistent.
  - intros (d & [<- | []] & Hk). discriminate Hk.
  - reflexivity.
  - reflexivity.
  - left. exists ""%string, "702"%string. reflexivity.
  - lia.
Defined.

(** In that store the search for "6" after the create shows the new record
    first under the plan [Sample.newest_first] and last under the natural
    plan. *)
Lemma created_record_place_by_plan :
  let coll' := fst (post_students Sample.one_record Sample.bob) in
  get_students_search_text Sample.newest_first coll' "6"
    (mkQuery (Int 1) (Int 5))
  = Some (Ok (Json (mkPage [mkDocument 2%N Sample.bob;
                            mkDocument 1%N Sample.anne]
                      (mkPagination 2 1 5 1))))
  /\ get_students_search_text natural coll' "6" (mkQuery (Int 1) (Int 5))
     = Some (Ok (Json (mkPage [mkDocument 1%N Sample.anne;
                               mkDocument 2%N Sample.bob]
                         (mkPagination 2 1 5 1)))).
Proof. split; reflexivity. Qed.

End SearchProps.
